(** * Verification of the note writer of [today-i-learned] ([src/entry.rs])

    Strings are modelled as Rocq [string]s over ASCII characters; the
    Rust sources operate on UTF-8 text, and every claim is about ASCII
    content.  The file system seen by one invocation of [Entry::write] is
    the content of the target file plus a log of the file operations
    performed, threaded through a small state-and-error monad. *)

From Stdlib Require Import Bool Arith Lia List ZArith.
From Stdlib Require Import Strings.String Strings.Ascii.
From Stdlib Require Import Numbers.DecimalString.
From Stdlib Require Numbers.DecimalZ.
Import ListNotations.
Open Scope list_scope.
Open Scope string_scope.

(** ** Characters and string helpers *)

Definition chr (n : nat) : string := String (ascii_of_nat n) "".

(** The newline and the double quote as one-character strings. *)
Definition nl : string := chr 10.
Definition dq : string := chr 34.

Definition nl_c : ascii := ascii_of_nat 10.

(** Rust's [char::is_whitespace] (and the regex class [\s]) restricted to
    ASCII: tab, line feed, vertical tab, form feed, carriage return, space. *)
Definition is_ws (c : ascii) : bool :=
  let n := nat_of_ascii c in
  (Nat.leb 9 n && Nat.leb n 13) || Nat.eqb n 32.

(** [starts_with p s]: [s] begins with [p]. *)
Fixpoint starts_with (p s : string) : bool :=
  match p, s with
  | EmptyString, _ => true
  | String a p', String b s' => Ascii.eqb a b && starts_with p' s'
  | String _ _, EmptyString => false
  end.

(** [s.split(d).next()] for a non-empty pattern [d]: the text before the
    first occurrence of [d], or the whole of [s] when [d] does not occur. *)
Fixpoint split_first (d s : string) : string :=
  if starts_with d s then ""
  else match s with
       | EmptyString => ""
       | String c s' => String c (split_first d s')
       end.

(** [Iterator::next] on [str::split]: the first piece always exists. *)
Definition split_next (d s : string) : option string := Some (split_first d s).

(** [s.split(sep)] for a character separator: [""] splits into [[""]]. *)
Fixpoint split_char (sep : ascii) (s : string) : list string :=
  match s with
  | EmptyString => [""]
  | String c s' =>
      if Ascii.eqb c sep then "" :: split_char sep s'
      else match split_char sep s' with
           | x :: xs => String c x :: xs
           | [] => [String c ""]
           end
  end.

Fixpoint trim_start (s : string) : string :=
  match s with
  | EmptyString => ""
  | String c s' => if is_ws c then trim_start s' else s
  end.

Fixpoint trim_end (s : string) : string :=
  match s with
  | EmptyString => ""
  | String c s' =>
      match trim_end s' with
      | EmptyString => if is_ws c then "" else String c ""
      | r => String c r
      end
  end.

(** [str::trim]. *)
Definition trim (s : string) : string := trim_end (trim_start s).

(** [slice.join(sep)]. *)
Fixpoint join (sep : string) (l : list string) : string :=
  match l with
  | [] => ""
  | [x] => x
  | x :: xs => x ++ sep ++ join sep xs
  end.

(** [Vec::contains] on strings: exact equality. *)
Definition contains (l : list string) (t : string) : bool :=
  existsb (String.eqb t) l.

(** [str::replace(from, to)]: every non-overlapping occurrence of [from],
    scanned left to right, is replaced by [to].  [k] counts the characters
    still covered by the last match.  The pattern is never empty here (it
    always begins with [tags:]). *)
Fixpoint replace_go (from to : string) (k : nat) (s : string) : string :=
  match s with
  | EmptyString => ""
  | String c s' =>
      match k with
      | S k' => replace_go from to k' s'
      | O => if starts_with from s
             then to ++ replace_go from to (pred (length from)) s'
             else String c (replace_go from to 0 s')
      end
  end.

Definition replace (from to s : string) : string := replace_go from to 0 s.

(** ** The regex [(?m)^tags:\s*\[(.*?)\]$]

    Leftmost-first semantics: the first line start at which the pattern
    matches wins.  At a given start, the greedy [\s*] takes the maximal
    whitespace run (backing off only exposes a whitespace character, which
    is not [\[]), and the lazy [(.*?)] takes the shortest run of non-newline
    characters followed by [\]] at the end of a line. *)

Fixpoint ws_span (s : string) : string * string :=
  match s with
  | String c s' => if is_ws c then let (w, r) := ws_span s' in (String c w, r)
                   else ("", s)
  | EmptyString => ("", "")
  end.

Definition at_eol (s : string) : bool :=
  match s with
  | EmptyString => true
  | String c _ => Ascii.eqb c nl_c
  end.

Fixpoint lazy_close (s : string) : option string :=
  match s with
  | EmptyString => None
  | String c s' =>
      if Ascii.eqb c "]"%char && at_eol s' then Some ""
      else if Ascii.eqb c nl_c then None
      else option_map (String c) (lazy_close s')
  end.

(** A match starting exactly at the head of [s]: the whole match and the
    first capture group. *)
Definition match_here (s : string) : option (string * string) :=
  if starts_with "tags:" s then
    let (w, r) := ws_span (substring 5 (length s) s) in
    match r with
    | String c r' =>
        if Ascii.eqb c "["%char then
          match lazy_close r' with
          | Some cap => Some ("tags:" ++ w ++ "[" ++ cap ++ "]", cap)
          | None => None
          end
        else None
    | EmptyString => None
    end
  else None.

Fixpoint search (bol : bool) (s : string) : option (string * string) :=
  match (if bol then match_here s else None) with
  | Some r => Some r
  | None =>
      match s with
      | EmptyString => None
      | String c s' => search (Ascii.eqb c nl_c) s'
      end
  end.

(** [tags_regex.captures(meta)]: [(captures[0], captures[1])]. *)
Definition tags_captures (meta : string) : option (string * string) :=
  search true meta.

(** ** Errors *)

(** Modelled from the spec: the [Error] enum of [src/error.rs], which is not
    among the sources; its variants are the ones [entry.rs] and [main.rs]
    construct, each carrying the context the spec lists. *)
Inductive Error :=
| CannotFindDir (which : string)
| CannotBuildPath
| CannotCreateDir (path : string)
| CannotOpenOrCreatePath (path : string)
| CannotReadFile (path : string)
| CannotParseMetaData
| CannotWriteToFile (path : string)
| CannotProcessArgs.

Inductive result (A : Type) :=
| Ok (a : A)
| Err (e : Error).
Arguments Ok {A} a.
Arguments Err {A} e.

(** ** The file system of one invocation

    [file] is the content of the target file ([None] before it exists);
    [ops] is the log of file operations, oldest first.  I/O itself never
    fails in this model; the failures studied are the ones of the code. *)

Inductive fs_op :=
| OpOpen
| OpMetadata
| OpRead
| OpOverwrite (s : string)
| OpAppend (s : string).

Record FS := { file : option string; ops : list fs_op }.

Definition contents_of (st : FS) : string :=
  match file st with Some s => s | None => "" end.

Definition M (A : Type) := FS -> result A * FS.

Definition ret {A} (a : A) : M A := fun st => (Ok a, st).
Definition throw {A} (e : Error) : M A := fun st => (Err e, st).
Definition bind {A B} (m : M A) (f : A -> M B) : M B :=
  fun st => match m st with
            | (Ok a, st') => f a st'
            | (Err e, st') => (Err e, st')
            end.

Notation "x <- m ;; k" := (bind m (fun x => k))
  (at level 61, m at next level, right associativity).
Notation "m ;; k" := (bind m (fun _ => k))
  (at level 61, right associativity).

Definition log (o : fs_op) (st : FS) : list fs_op := (ops st ++ [o])%list.

(** [OpenOptions::new().append(true).create(true).open(path)]. *)
Definition open_append_create : M unit := fun st =>
  (Ok tt, {| file := Some (contents_of st); ops := log OpOpen st |}).

(** [file.metadata()?.len()]: the length in bytes (one byte per ASCII
    character). *)
Definition metadata_len : M nat := fun st =>
  (Ok (length (contents_of st)), {| file := file st; ops := log OpMetadata st |}).

(** [fs::read_to_string(path)]. *)
Definition read_to_string : M string := fun st =>
  (Ok (contents_of st), {| file := file st; ops := log OpRead st |}).

(** [fs::write(path, s)]: truncate and write. *)
Definition fs_write (s : string) : M unit := fun st =>
  (Ok tt, {| file := Some s; ops := log (OpOverwrite s) st |}).

(** [file.write_all(s)] on the handle opened in append mode: the bytes go
    to the current end of the file. *)
Definition write_all (s : string) : M unit := fun st =>
  (Ok tt, {| file := Some (contents_of st ++ s); ops := log (OpAppend s) st |}).

(** ** [Entry] *)

Record Entry := { content : string; tags : list string }.

(** [Entry::generate_meta]: the raw string literal keeps the four spaces of
    source indentation at the start of every line after the first. *)
Definition generate_meta (e : Entry) : string :=
  "---" ++ nl ++
  "    title: " ++ dq ++ "default" ++ dq ++ nl ++
  "    tags: [" ++ join ", " (tags e) ++ "]" ++ nl ++
  "    ---" ++ nl ++
  "    " ++ nl ++
  "    ".

Definition delimiter : string := nl ++ "---" ++ nl.

Definition existing_tags_of (cap : string) : list string :=
  map trim (split_char "," cap).

Definition tags_to_add (existing input : list string) : list string :=
  filter (fun tag => negb (contains existing tag)) input.

Definition updated_tags_line (existing new_tags : list string) : string :=
  "tags: [" ++ join ", " (existing ++ new_tags)%list ++ "]".

(** [Entry::update_meta]: the content after the in-memory transformation,
    or the parse failure. *)
Definition transform (e : Entry) (contents : string) : result string :=
  match split_next delimiter contents with
  | None => Err CannotParseMetaData
  | Some meta =>
      match tags_captures meta with
      | Some (whole, cap) =>
          let existing := existing_tags_of cap in
          let new_tags := tags_to_add existing (tags e) in
          match new_tags with
          | [] => Ok contents
          | _ => Ok (replace whole (updated_tags_line existing new_tags) contents)
          end
      | None => Err CannotParseMetaData
      end
  end.

Definition update_meta (e : Entry) : M unit :=
  contents <- read_to_string ;;
  match transform e contents with
  | Ok contents' => fs_write contents'
  | Err err => throw err
  end.

Definition entry_line (e : Entry) : string := "- " ++ content e ++ nl.

(** [Entry::write], once [build_path] has produced the target path. *)
Definition write (e : Entry) : M unit :=
  open_append_create ;;
  file_size <- metadata_len ;;
  (if Nat.eqb file_size 0 then write_all (generate_meta e)
   else match tags e with
        | [] => ret tt
        | _ => update_meta e
        end) ;;
  write_all (entry_line e).

(** Running [write] on a file with content [s] (or on a missing file). *)
Definition run_write (e : Entry) (f : option string) : result unit * FS :=
  write e {| file := f; ops := [] |}.

(** ** Date and path: [Entry::build_path] *)

(** [{}] on a [u32]. *)
Definition dec_nat (n : nat) : string := NilZero.string_of_uint (Nat.to_uint n).

(** [{:02}]: pad with zeros to width two. *)
Definition fmt02 (n : nat) : string :=
  let s := dec_nat n in
  if Nat.ltb (length s) 2 then "0" ++ s else s.

(** [{}] on an [i32] year: plain decimal, with a minus sign when negative. *)
Definition dec_year (y : Z) : string := NilZero.string_of_int (Z.to_int y).

Record Date := { year : Z; month : nat; day : nat }.

(** [format!("{:02}-{:02}-{}", time.month(), time.day(), time.year())]. *)
Definition format_date (d : Date) : string :=
  fmt02 (month d) ++ "-" ++ fmt02 (day d) ++ "-" ++ dec_year (year d).

Fixpoint last_char (s : string) : option ascii :=
  match s with
  | EmptyString => None
  | String c EmptyString => Some c
  | String _ s' => last_char s'
  end.

(** [PathBuf::push] on Unix: an absolute component replaces the path; a
    separator is inserted unless the path is empty or already ends in one. *)
Definition push (p c : string) : string :=
  if starts_with "/" c then c
  else match last_char p with
       | None => c
       | Some l => if Ascii.eqb l "/"%char then p ++ c else p ++ "/" ++ c
       end.

Definition path_join (p c : string) : string := push p c.

(** The back end of [Path::components] on Unix: the string is cut at
    every [/]; empty pieces and [.] pieces are not components (a leading
    [.] is the [CurDir] component, handled by [has_parent]); the result is
    the offset and text of the last remaining piece, which is a [Normal]
    component or [..]. *)
Definition close_seg (start : nat) (seg : string) (best : option (nat * string)) :
  option (nat * string) :=
  if String.eqb seg "" || String.eqb seg "." then best else Some (start, seg).

Fixpoint scan_components (s : string) (pos start : nat) (seg : string)
    (best : option (nat * string)) : option (nat * string) :=
  match s with
  | EmptyString => close_seg start seg best
  | String c s' =>
      if Ascii.eqb c "/"%char
      then scan_components s' (S pos) (S pos) "" (close_seg start seg best)
      else scan_components s' (S pos) start (seg ++ String c "") best
  end.

(** [Path::file_name], with the offset of the name in the path: the last
    component when it is [Normal]. *)
Definition file_name_pos (p : string) : option (nat * string) :=
  match scan_components p 0 0 "" None with
  | Some (off, name) => if String.eqb name ".." then None else Some (off, name)
  | None => None
  end.

(** [Path::parent] is [Some] unless the path has no component or only the
    root: the last component is [Normal], [..] or a leading [.]. *)
Definition has_parent (p : string) : bool :=
  match scan_components p 0 0 "" None with
  | Some _ => true
  | None => String.eqb p "." || starts_with "./" p
  end.

Fixpoint split_last_dot (s : string) : option (string * string) :=
  match s with
  | EmptyString => None
  | String c s' =>
      match split_last_dot s' with
      | Some (a, b) => Some (String c a, b)
      | None => if Ascii.eqb c "."%char then Some ("", s') else None
      end
  end.

(** [Path::file_stem] of a file name: the part before the last dot, unless
    that dot starts the name. *)
Definition file_stem (name : string) : string :=
  match split_last_dot name with
  | Some (EmptyString, _) => name
  | Some (a, _) => a
  | None => name
  end.

(** [PathBuf::set_extension(ext)]: without a file name nothing changes;
    otherwise the path is cut right after the stem of its file name (which
    also drops what follows the name, as a trailing [/]) and [.ext] is
    appended when [ext] is not empty. *)
Definition set_extension (p ext : string) : string :=
  match file_name_pos p with
  | None => p
  | Some (off, name) =>
      substring 0 (off + length (file_stem name)) p ++
      (if String.eqb ext "" then "" else "." ++ ext)
  end.

(** [build_path] after [find_root_dir()], with the current local date: the
    path, then the [parent()] check; creating a missing parent directory
    is taken to succeed (it does not change the path returned). *)
Definition build_path (root_dir : option string) (now : Date) : result string :=
  match root_dir with
  | None => Err (CannotFindDir "root")
  | Some root =>
      let path := set_extension (path_join (path_join root (format_date now)) "default") "md" in
      if has_parent path then Ok path else Err (CannotFindDir "parent")
  end.

(** [find_root_dir]: [home.join(".til/notes")]. *)
Definition find_root_dir (home : option string) : option string :=
  option_map (fun h => path_join h ".til/notes") home.

Fixpoint str_forall (p : ascii -> bool) (s : string) : bool :=
  match s with
  | EmptyString => true
  | String c s' => p c && str_forall p s'
  end.

(** Successive invocations of [Entry::write] on the same file, each
    starting from the content the previous one left. *)
Fixpoint run_writes (es : list Entry) (f : option string) : option string :=
  match es with
  | [] => f
  | e :: es' => run_writes es' (file (snd (run_write e f)))
  end.

(** A tag that survives the round trip through a tags line: non-empty,
    without [,], []] or newline, and not starting or ending in
    whitespace. *)
Definition clean_tag (t : string) : bool :=
  str_forall (fun c => negb (Ascii.eqb c ","%char) && negb (Ascii.eqb c "]"%char)
                        && negb (Ascii.eqb c nl_c)) t &&
  match t with EmptyString => false | String c _ => negb (is_ws c) end &&
  match last_char t with None => false | Some c => negb (is_ws c) end.

(** ** The command-line entry of [src/main.rs]

    [main] dispatches [that] to this [Entry], not to the one of
    [src/entry.rs]: it appends the message to a file named after the
    title, in a directory named after the unpadded date. *)
Module Main.

Record Entry := { message : string; title : string }.

(** [Entry::write] of [main.rs], once the path is built, with the file
    operations succeeding (their failures are the [CannotOpenOrCreatePath]
    and [CannotWriteToFile] errors, not modelled). *)
Definition write (e : Entry) : M unit :=
  open_append_create ;;
  write_all ("- " ++ message e ++ nl).

Definition run_write (e : Entry) (f : option string) : result unit * FS :=
  write e {| file := f; ops := [] |}.

Fixpoint run_writes (es : list Entry) (f : option string) : option string :=
  match es with
  | [] => f
  | e :: es' => run_writes es' (file (snd (run_write e f)))
  end.

(** [format!("{}-{}-{}", time.month(), time.day(), time.year())]. *)
Definition format_date (d : Date) : string :=
  dec_nat (month d) ++ "-" ++ dec_nat (day d) ++ "-" ++ dec_year (year d).

(** [Entry::build_path] of [main.rs] after [find_root_dir()], with the
    same [parent()] check and the same treatment of directory creation. *)
Definition build_path (root_dir : option string) (now : Date) (e : Entry) : result string :=
  match root_dir with
  | None => Err (CannotFindDir "root")
  | Some root =>
      let path := set_extension (path_join (path_join root (format_date now)) (title e)) "md" in
      if has_parent path then Ok path else Err (CannotFindDir "parent")
  end.

End Main.

(** ** General lemmas *)

Definition no_nl (s : string) : bool := str_forall (fun c => negb (Ascii.eqb c nl_c)) s.

Lemma split_first_prefix (d s : string) : exists r, s = split_first d s ++ r.
Proof.
  induction s as [|c s IH]; simpl.
  - exists ""; destruct (starts_with d ""); reflexivity.
  - destruct (starts_with d (String c s)).
    + exists (String c s); reflexivity.
    + destruct IH as [r Hr]; exists r; simpl; rewrite <- Hr; reflexivity.
Qed.

Lemma split_next_some (d s : string) : exists meta, split_next d s = Some meta.
Proof. exists (split_first d s); reflexivity. Qed.

Lemma contains_In (l : list string) (t : string) : contains l t = true <-> In t l.
Proof.
  unfold contains; rewrite existsb_exists; split.
  - intros [x [Hx Heq]]; apply String.eqb_eq in Heq; subst; exact Hx.
  - intros H; exists t; split; [exact H | apply String.eqb_refl].
Qed.

Lemma ws_span_ws (s w r : string) : ws_span s = (w, r) -> str_forall is_ws w = true.
Proof.
  revert w r; induction s as [|c s IH]; simpl; intros w r H.
  - inversion H; reflexivity.
  - destruct (is_ws c) eqn:Hc.
    + destruct (ws_span s) as [w' r'] eqn:Hs; inversion H; subst; simpl.
      rewrite Hc; simpl; eapply IH; reflexivity.
    + inversion H; reflexivity.
Qed.

Lemma lazy_close_no_nl (s cap : string) : lazy_close s = Some cap -> no_nl cap = true.
Proof.
  revert cap; induction s as [|c s IH]; simpl; intros cap H; [discriminate|].
  destruct (Ascii.eqb c "]"%char && at_eol s); [inversion H; reflexivity|].
  destruct (Ascii.eqb c nl_c) eqn:Hc; [discriminate|].
  destruct (lazy_close s) as [cap'|] eqn:Hl; simpl in H; inversion H; subst.
  unfold no_nl; simpl; rewrite Hc; simpl; apply IH; reflexivity.
Qed.

Lemma match_here_sound (s whole cap : string) :
  match_here s = Some (whole, cap) ->
  exists w, str_forall is_ws w = true /\ no_nl cap = true /\
            whole = "tags:" ++ w ++ "[" ++ cap ++ "]".
Proof.
  unfold match_here; destruct (starts_with "tags:" s); [|discriminate].
  destruct (ws_span (substring 5 (length s) s)) as [w r] eqn:Hw.
  destruct r as [|c r']; [discriminate|].
  destruct (Ascii.eqb c "["%char); [|discriminate].
  destruct (lazy_close r') as [cap'|] eqn:Hl; [|discriminate].
  intros H; inversion H; subst.
  exists w; split; [eapply ws_span_ws; exact Hw|].
  split; [eapply lazy_close_no_nl; exact Hl | reflexivity].
Qed.

Lemma search_sound (b : bool) (s whole cap : string) :
  search b s = Some (whole, cap) ->
  exists w, str_forall is_ws w = true /\ no_nl cap = true /\
            whole = "tags:" ++ w ++ "[" ++ cap ++ "]".
Proof.
  revert b; induction s as [|c s IH]; intros b; simpl.
  - destruct b; [|discriminate].
    destruct (match_here "") as [r|] eqn:Hm; [|discriminate].
    intros H; injection H as Hr; subst r; eapply match_here_sound; exact Hm.
  - destruct (if b then match_here (String c s) else None) as [r|] eqn:Hm.
    + intros H; injection H as Hr; subst r; destruct b; [|discriminate].
      eapply match_here_sound; exact Hm.
    + apply IH.
Qed.

Lemma tags_captures_sound (meta whole cap : string) :
  tags_captures meta = Some (whole, cap) ->
  exists w, str_forall is_ws w = true /\ no_nl cap = true /\
            whole = "tags:" ++ w ++ "[" ++ cap ++ "]".
Proof. apply search_sound. Qed.

(** *** The control flow of [write] on a non-empty file *)

Lemma run_write_nonempty (e : Entry) (s : string) :
  s <> "" ->
  run_write e (Some s) =
  match tags e with
  | [] => (Ok tt, {| file := Some (s ++ entry_line e);
                     ops := [OpOpen; OpMetadata; OpAppend (entry_line e)] |})
  | _ =>
      match transform e s with
      | Ok s' => (Ok tt, {| file := Some (s' ++ entry_line e);
                            ops := [OpOpen; OpMetadata; OpRead; OpOverwrite s';
                                    OpAppend (entry_line e)] |})
      | Err err => (Err err, {| file := Some s; ops := [OpOpen; OpMetadata; OpRead] |})
      end
  end.
Proof.
  intros Hs; destruct s as [|c s']; [congruence|].
  unfold run_write, write, bind, open_append_create, metadata_len; simpl.
  destruct (tags e) as [|t ts]; [reflexivity|].
  unfold update_meta, bind, read_to_string, contents_of, log; simpl.
  destruct (transform e (String c s')); reflexivity.
Qed.

Lemma transform_match (e : Entry) (s whole cap : string) :
  tags_captures (split_first delimiter s) = Some (whole, cap) ->
  transform e s =
  Ok (match tags_to_add (existing_tags_of cap) (tags e) with
      | [] => s
      | nt => replace whole (updated_tags_line (existing_tags_of cap) nt) s
      end).
Proof.
  intros H; unfold transform, split_next; rewrite H.
  destruct (tags_to_add (existing_tags_of cap) (tags e)); reflexivity.
Qed.

Lemma transform_no_match (e : Entry) (s : string) :
  tags_captures (split_first delimiter s) = None ->
  transform e s = Err CannotParseMetaData.
Proof. intros H; unfold transform, split_next; rewrite H; reflexivity. Qed.

(** *** [replace] *)

Lemma str_app_nil_r (s : string) : s ++ "" = s.
Proof. induction s as [|c s IH]; simpl; [reflexivity | rewrite IH; reflexivity]. Qed.

Lemma str_app_assoc (a b c : string) : (a ++ b) ++ c = a ++ (b ++ c).
Proof. induction a as [|x a IH]; simpl; [reflexivity | rewrite IH; reflexivity]. Qed.

(** [occurs_before from pre rest]: an occurrence of [from] in [pre ++ rest]
    starts inside [pre]. *)
Fixpoint occurs_before (from pre rest : string) : bool :=
  match pre with
  | EmptyString => false
  | String c pre' => starts_with from (pre ++ rest) || occurs_before from pre' rest
  end.

Lemma replace_go_skip (from to a b : string) :
  replace_go from to (length a) (a ++ b) = replace_go from to 0 b.
Proof. induction a as [|c a IH]; simpl; [reflexivity | exact IH]. Qed.

Lemma replace_go_prefix (from to pre rest : string) :
  occurs_before from pre rest = false ->
  replace_go from to 0 (pre ++ rest) = pre ++ replace_go from to 0 rest.
Proof.
  induction pre as [|c pre IH]; simpl; intros H; [reflexivity|].
  apply orb_false_iff in H as [H1 H2].
  rewrite H1; f_equal; apply IH; exact H2.
Qed.

Lemma starts_with_app (p s : string) : starts_with p (p ++ s) = true.
Proof.
  induction p as [|c p IH]; simpl; [reflexivity|].
  rewrite Ascii.eqb_refl; exact IH.
Qed.

(** Replacing in [pre ++ from ++ post], where the first occurrence of
    [from] is the displayed one. *)
Lemma replace_first_occurrence (from to pre post : string) :
  from <> "" ->
  occurs_before from pre (from ++ post) = false ->
  replace from to (pre ++ from ++ post) = pre ++ to ++ replace from to post.
Proof.
  intros Hne Hocc; unfold replace.
  rewrite replace_go_prefix by exact Hocc.
  f_equal.
  destruct from as [|c f]; [congruence|].
  simpl. rewrite Ascii.eqb_refl, starts_with_app; simpl.
  f_equal. apply replace_go_skip.
Qed.

Lemma replace_no_occurrence (from to s : string) :
  occurs_before from s "" = false -> replace from to s = s.
Proof.
  intros H; unfold replace.
  rewrite <- (str_app_nil_r s) at 1.
  rewrite replace_go_prefix by exact H; apply str_app_nil_r.
Qed.

(** *** The first write *)

Lemma run_write_fresh (e : Entry) (f : option string) :
  (f = None \/ f = Some "") ->
  run_write e f =
  (Ok tt, {| file := Some (generate_meta e ++ entry_line e);
             ops := [OpOpen; OpMetadata; OpAppend (generate_meta e);
                     OpAppend (entry_line e)] |}).
Proof. intros [-> | ->]; reflexivity. Qed.

(** *** Text in which no line starts with [t] *)

Fixpoint no_t_line (bol : bool) (s : string) : bool :=
  match s with
  | EmptyString => true
  | String c s' => (negb bol || negb (Ascii.eqb c "t"%char)) && no_t_line (Ascii.eqb c nl_c) s'
  end.

Fixpoint end_bol (bol : bool) (s : string) : bool :=
  match s with
  | EmptyString => bol
  | String c s' => end_bol (Ascii.eqb c nl_c) s'
  end.

Lemma no_t_line_app (b : bool) (s1 s2 : string) :
  no_t_line b (s1 ++ s2) = no_t_line b s1 && no_t_line (end_bol b s1) s2.
Proof.
  revert b; induction s1 as [|c s1 IH]; intros b; simpl; [reflexivity|].
  rewrite IH, andb_assoc; reflexivity.
Qed.

Lemma no_t_line_nl_free (x r : string) :
  no_nl x = true -> no_t_line false (x ++ r) = no_t_line false r.
Proof.
  induction x as [|c x IH]; simpl; intros H; [reflexivity|].
  unfold no_nl in H; simpl in H; apply andb_prop in H as [H1 H2].
  apply negb_true_iff in H1; rewrite H1; apply IH; exact H2.
Qed.

Lemma no_t_line_search (b : bool) (s : string) :
  no_t_line b s = true -> search b s = None.
Proof.
  revert b; induction s as [|c s IH]; intros b H; simpl.
  - destruct b; reflexivity.
  - simpl in H; apply andb_prop in H as [H1 H2].
    replace (if b then match_here (String c s) else None) with (@None (string * string)).
    + apply IH; exact H2.
    + destruct b; [|reflexivity].
      simpl in H1; apply negb_true_iff in H1.
      unfold match_here.
      change (starts_with "tags:" (String c s))
        with (Ascii.eqb "t"%char c && starts_with "ags:" s).
      rewrite Ascii.eqb_sym, H1; reflexivity.
Qed.

Lemma no_nl_app (a b : string) : no_nl (a ++ b) = no_nl a && no_nl b.
Proof.
  induction a as [|c a IH]; simpl; [reflexivity|].
  unfold no_nl in *; simpl; rewrite IH, andb_assoc; reflexivity.
Qed.

Lemma no_nl_join (ts : list string) :
  Forall (fun t => no_nl t = true) ts -> no_nl (join ", " ts) = true.
Proof.
  induction ts as [|x xs IH]; intros H; [reflexivity|].
  inversion H as [|? ? Hx Hxs]; subst.
  destruct xs as [|y ys]; [exact Hx|].
  change (join ", " (x :: y :: ys)) with (x ++ ", " ++ join ", " (y :: ys)).
  rewrite !no_nl_app, Hx, IH by exact Hxs; reflexivity.
Qed.

(** A note file created by [write] has no line starting with [tags:]
    (its tags line is indented), so a later merge finds no tags line. *)
Lemma created_file_no_t_line (e : Entry) :
  no_nl (content e) = true -> Forall (fun t => no_nl t = true) (tags e) ->
  no_t_line true (generate_meta e ++ entry_line e) = true.
Proof.
  intros Hc Ht.
  unfold generate_meta, entry_line; rewrite !str_app_assoc.
  simpl. rewrite no_t_line_nl_free by (apply no_nl_join; exact Ht).
  simpl. rewrite no_t_line_nl_free by exact Hc.
  reflexivity.
Qed.

Lemma merge_after_init_fails (e1 e2 : Entry) :
  no_nl (content e1) = true -> Forall (fun t => no_nl t = true) (tags e1) ->
  tags e2 <> [] ->
  run_write e2 (Some (generate_meta e1 ++ entry_line e1)) =
  (Err CannotParseMetaData,
   {| file := Some (generate_meta e1 ++ entry_line e1);
      ops := [OpOpen; OpMetadata; OpRead] |}).
Proof.
  intros Hc Ht Hne.
  rewrite run_write_nonempty by (unfold generate_meta; discriminate).
  rewrite transform_no_match.
  - destruct (tags e2); [congruence | reflexivity].
  - destruct (split_first_prefix delimiter (generate_meta e1 ++ entry_line e1)) as [r Hr].
    apply no_t_line_search.
    pose proof (created_file_no_t_line e1 Hc Ht) as H.
    rewrite Hr, no_t_line_app in H; apply andb_prop in H as [H _]; exact H.
Qed.

(** ** Claims *)

(** C1 (code defect): initialising a file with tags [["a"]] and then
    writing again with tags [["b"]] does not merge: the second write fails
    with [CannotParseMetaData], the file is left as the first write made it
    and the second entry line is not appended.  The header written by
    [generate_meta] indents its [tags:] line, which the [^tags:] pattern of
    [update_meta] never matches. *)
Theorem C1_second_write_after_init_fails :
  let first := {| content := "first"; tags := ["a"] |} in
  let second := {| content := "second"; tags := ["b"] |} in
  let created := generate_meta first ++ entry_line first in
  run_write first None =
    (Ok tt, {| file := Some created;
               ops := [OpOpen; OpMetadata; OpAppend (generate_meta first);
                       OpAppend (entry_line first)] |}) /\
  run_write second (Some created) =
    (Err CannotParseMetaData,
     {| file := Some created; ops := [OpOpen; OpMetadata; OpRead] |}).
Proof.
  intros first second created; split.
  - apply run_write_fresh; left; reflexivity.
  - apply merge_after_init_fails; [reflexivity | repeat constructor | discriminate].
Qed.

(** C2 (code defect): the header created by the first write (tags
    [["a"; "b"]], content ["x"]) indents every line after the opening
    [---] by four spaces, so the file holds no [\n---\n] (the whole file is
    the candidate header block) and no line starting with [tags:]. *)
Theorem C2_created_header_is_indented :
  let e := {| content := "x"; tags := ["a"; "b"] |} in
  let created := generate_meta e ++ entry_line e in
  created = "---" ++ nl ++ "    title: " ++ dq ++ "default" ++ dq ++ nl ++
            "    tags: [a, b]" ++ nl ++ "    ---" ++ nl ++ "    " ++ nl ++
            "    - x" ++ nl /\
  split_first delimiter created = created /\
  tags_captures created = None.
Proof. vm_compute; split; [reflexivity | split; reflexivity]. Qed.

(** C3 (code defect): a file without any [\n---\n] is not rejected.  The
    file ["tags: [a]\n"] written with tags [["b"]] is rewritten to
    ["tags: [a, b]\n"] and the entry is appended: [split(..).next()] is
    never [None], so the [CannotParseMetaData] branch for a missing
    delimiter is unreachable. *)
Theorem C3_missing_delimiter_accepted :
  let s := "tags: [a]" ++ nl in
  let e := {| content := "y"; tags := ["b"] |} in
  split_first delimiter s = s /\
  run_write e (Some s) =
    (Ok tt, {| file := Some ("tags: [a, b]" ++ nl ++ "- y" ++ nl);
               ops := [OpOpen; OpMetadata; OpRead;
                       OpOverwrite ("tags: [a, b]" ++ nl);
                       OpAppend ("- y" ++ nl)] |}).
Proof. vm_compute; split; reflexivity. Qed.

(** C4: on a non-empty file whose candidate header block (the text before
    the first [\n---\n]) has no match of the tags pattern, a write with
    non-empty tags fails with [CannotParseMetaData]; the file keeps its
    content byte for byte, and the only operations performed are the open,
    the size query and the read (no overwrite, no appended entry line). *)
Theorem C4_missing_tags_line_rejected (e : Entry) (s : string) :
  s <> "" -> tags e <> [] ->
  tags_captures (split_first delimiter s) = None ->
  run_write e (Some s) =
  (Err CannotParseMetaData, {| file := Some s; ops := [OpOpen; OpMetadata; OpRead] |}).
Proof.
  intros Hs Ht Hm.
  rewrite run_write_nonempty by exact Hs.
  rewrite transform_no_match by exact Hm.
  destruct (tags e); [congruence | reflexivity].
Qed.

Lemma C4_missing_tags_line_rejected_witness :
  let s := "---" ++ nl ++ "title: x" ++ nl ++ "---" ++ nl ++ "- a" ++ nl in
  let e := {| content := "b"; tags := ["t"] |} in
  run_write e (Some s) =
  (Err CannotParseMetaData, {| file := Some s; ops := [OpOpen; OpMetadata; OpRead] |}).
Proof.
  intros s e.
  apply C4_missing_tags_line_rejected; [discriminate | discriminate | vm_compute; reflexivity].
Defined.

(** The tags to add, in the words of the spec: the input tags, in input
    order, that are not (by exact string equality) among the existing ones. *)
Definition spec_new_tags (existing input : list string) : list string :=
  filter (fun t => if in_dec string_dec t existing then false else true) input.

Lemma tags_to_add_spec (existing input : list string) :
  tags_to_add existing input = spec_new_tags existing input.
Proof.
  unfold tags_to_add, spec_new_tags; apply filter_ext; intros t.
  destruct (in_dec string_dec t existing) as [Hin | Hnin].
  - apply contains_In in Hin; rewrite Hin; reflexivity.
  - destruct (contains existing t) eqn:Hc; [|reflexivity].
    apply contains_In in Hc; contradiction.
Qed.

(** C5: when the tags pattern matches the candidate header block of a
    non-empty file, with whole match [whole] and bracket contents [cap], a
    write with non-empty tags succeeds, [whole] is [tags:], whitespace, [[],
    [cap] (one line) and []]; the existing tags are [cap] split on commas
    with each item trimmed; the tags added are the input tags absent from
    them under exact equality, in input order; and the file becomes, before
    the appended entry line, the unchanged content when nothing is added,
    and otherwise the content with [whole] replaced by
    [tags: [existing..., added...]]. *)
Theorem C5_merge_computation (e : Entry) (s whole cap : string) :
  s <> "" -> tags e <> [] ->
  tags_captures (split_first delimiter s) = Some (whole, cap) ->
  let existing := map trim (split_char "," cap) in
  let added := spec_new_tags existing (tags e) in
  (exists w, str_forall is_ws w = true /\ no_nl cap = true /\
             whole = "tags:" ++ w ++ "[" ++ cap ++ "]") /\
  fst (run_write e (Some s)) = Ok tt /\
  file (snd (run_write e (Some s))) =
    Some ((match added with
           | [] => s
           | _ => replace whole ("tags: [" ++ join ", " (existing ++ added)%list ++ "]") s
           end) ++ entry_line e).
Proof.
  intros Hs Ht Hm existing added.
  split; [eapply tags_captures_sound; exact Hm|].
  rewrite run_write_nonempty by exact Hs.
  rewrite (transform_match e s whole cap Hm).
  unfold existing_tags_of; rewrite tags_to_add_spec; fold existing added.
  destruct (tags e) as [|t ts]; [congruence|].
  destruct added as [|a l]; split; reflexivity.
Qed.

Lemma C5_merge_computation_witness :
  let s := "---" ++ nl ++ "tags: [a,  b ]" ++ nl ++ "---" ++ nl in
  let e := {| content := "y"; tags := ["b"; "B"; " a"; "c"] |} in
  let existing := map trim (split_char "," "a,  b ") in
  let added := spec_new_tags existing (tags e) in
  (exists w, str_forall is_ws w = true /\ no_nl "a,  b " = true /\
             "tags: [a,  b ]" = "tags:" ++ w ++ "[" ++ "a,  b " ++ "]") /\
  fst (run_write e (Some s)) = Ok tt /\
  file (snd (run_write e (Some s))) =
    Some ((match added with
           | [] => s
           | _ => replace "tags: [a,  b ]"
                    ("tags: [" ++ join ", " (existing ++ added)%list ++ "]") s
           end) ++ entry_line e).
Proof.
  intros s e existing added.
  apply C5_merge_computation; [discriminate | discriminate | vm_compute; reflexivity].
Defined.

(** C6 (code bug): the text [tags: [a]] occurs twice, in the header and
    in an entry line; a merge adding [b] rewrites both occurrences, the
    entry line included, so the result differs from the one where only the
    header line is replaced. *)
Lemma C6_every_occurrence_replaced :
  let s := "---" ++ nl ++ "tags: [a]" ++ nl ++ "---" ++ nl ++ "- tags: [a]" ++ nl in
  let e := {| content := "y"; tags := ["b"] |} in
  file (snd (run_write e (Some s))) =
    Some ("---" ++ nl ++ "tags: [a, b]" ++ nl ++ "---" ++ nl ++ "- tags: [a, b]" ++ nl ++
          "- y" ++ nl) /\
  file (snd (run_write e (Some s))) <>
    Some ("---" ++ nl ++ "tags: [a, b]" ++ nl ++ "---" ++ nl ++ "- tags: [a]" ++ nl ++
          "- y" ++ nl).
Proof. vm_compute; split; [reflexivity | discriminate]. Qed.

(** [str::replace] in [update_meta]: when a merge adds tags, [s = pre ++ whole ++ post] with
    [whole] (the matched tags text) first occurring after [pre], the file
    becomes [pre], the updated tags line, then [post] with every further
    non-overlapping occurrence of [whole] replaced as well, then the entry
    line; when [post] holds no further occurrence it is kept byte for
    byte. *)
Theorem merge_replaces_every_occurrence (e : Entry) (s whole cap pre post : string) :
  s <> "" -> tags e <> [] ->
  tags_captures (split_first delimiter s) = Some (whole, cap) ->
  let existing := existing_tags_of cap in
  let added := tags_to_add existing (tags e) in
  added <> [] ->
  s = pre ++ whole ++ post ->
  occurs_before whole pre (whole ++ post) = false ->
  let line := updated_tags_line existing added in
  file (snd (run_write e (Some s))) =
    Some (pre ++ line ++ replace whole line post ++ entry_line e) /\
  (occurs_before whole post "" = false ->
   file (snd (run_write e (Some s))) = Some (pre ++ line ++ post ++ entry_line e)).
Proof.
  intros Hs Ht Hm existing added Hadd Hsplit Hocc line.
  assert (Hne : whole <> "").
  { destruct (tags_captures_sound _ _ _ Hm) as [w [_ [_ ->]]]; discriminate. }
  assert (Hfile : file (snd (run_write e (Some s))) =
                  Some (replace whole line s ++ entry_line e)).
  { rewrite run_write_nonempty by exact Hs.
    rewrite (transform_match e s whole cap Hm); fold existing added.
    destruct (tags e) as [|t ts]; [congruence|].
    destruct added as [|a l]; [congruence | reflexivity]. }
  rewrite Hfile, Hsplit, replace_first_occurrence by assumption.
  rewrite !str_app_assoc.
  split; [reflexivity|].
  intros Hpost; rewrite (replace_no_occurrence whole line post Hpost); reflexivity.
Qed.

Lemma merge_replaces_every_occurrence_witness :
  let s := "---" ++ nl ++ "tags: [a]" ++ nl ++ "---" ++ nl ++ "- tags: [a]" ++ nl in
  let e := {| content := "y"; tags := ["b"] |} in
  let line := updated_tags_line (existing_tags_of "a")
                (tags_to_add (existing_tags_of "a") (tags e)) in
  let pre := "---" ++ nl in
  let post := nl ++ "---" ++ nl ++ "- tags: [a]" ++ nl in
  file (snd (run_write e (Some s))) =
    Some (pre ++ line ++ replace "tags: [a]" line post ++ entry_line e) /\
  (occurs_before "tags: [a]" post "" = false ->
   file (snd (run_write e (Some s))) = Some (pre ++ line ++ post ++ entry_line e)).
Proof.
  intros s e line pre post.
  apply (merge_replaces_every_occurrence e s "tags: [a]" "a" pre post);
    [discriminate | discriminate | vm_compute; reflexivity | vm_compute; discriminate
    | vm_compute; reflexivity | vm_compute; reflexivity].
Defined.

Lemma tags_to_add_all_present (existing input : list string) :
  Forall (fun t => In t existing) input -> tags_to_add existing input = [].
Proof.
  induction 1 as [|t ts Ht _ IH]; [reflexivity|].
  unfold tags_to_add in *; simpl.
  apply contains_In in Ht; rewrite Ht; exact IH.
Qed.

(** C7 (counterexample): re-adding the present tag [a] to [tags: [a, b]]
    leaves the bytes unchanged, but the file is still rewritten: the code
    calls [fs::write] with the unchanged content before appending. *)
Lemma C7_unchanged_content_written_back :
  let s := "---" ++ nl ++ "tags: [a, b]" ++ nl ++ "---" ++ nl in
  let e := {| content := "y"; tags := ["a"] |} in
  In (OpOverwrite s) (ops (snd (run_write e (Some s)))).
Proof. vm_compute; right; right; right; left; reflexivity. Qed.

(** C7 (amended): on a non-empty file whose candidate header block has a
    tags line, a write whose (non-empty) input tags are all already present
    succeeds, and the file ends up byte-identical to its prior content
    followed by the entry line; the content is overwritten with itself
    (truncate and write of the same bytes) before the entry is appended. *)
Theorem C7_merge_idempotent (e : Entry) (s whole cap : string) :
  s <> "" -> tags e <> [] ->
  tags_captures (split_first delimiter s) = Some (whole, cap) ->
  Forall (fun t => In t (existing_tags_of cap)) (tags e) ->
  run_write e (Some s) =
  (Ok tt, {| file := Some (s ++ entry_line e);
             ops := [OpOpen; OpMetadata; OpRead; OpOverwrite s; OpAppend (entry_line e)] |}).
Proof.
  intros Hs Ht Hm Hall.
  rewrite run_write_nonempty by exact Hs.
  rewrite (transform_match e s whole cap Hm), tags_to_add_all_present by exact Hall.
  destruct (tags e); [congruence | reflexivity].
Qed.

Lemma C7_merge_idempotent_witness :
  let s := "---" ++ nl ++ "tags: [a, b]" ++ nl ++ "---" ++ nl in
  let e := {| content := "y"; tags := ["a"] |} in
  run_write e (Some s) =
  (Ok tt, {| file := Some (s ++ entry_line e);
             ops := [OpOpen; OpMetadata; OpRead; OpOverwrite s; OpAppend (entry_line e)] |}).
Proof.
  intros s e.
  apply (C7_merge_idempotent e s "tags: [a, b]" "a, b");
    [discriminate | discriminate | vm_compute; reflexivity |].
  vm_compute; repeat constructor.
Defined.

(** C8: with no tags, a write on a non-empty file neither reads nor
    rewrites it: it opens it, queries its size and appends [- content\n];
    the content becomes the old content followed by that line. *)
Theorem C8_empty_tags_append_only (e : Entry) (s : string) :
  s <> "" -> tags e = [] ->
  run_write e (Some s) =
  (Ok tt, {| file := Some (s ++ "- " ++ content e ++ nl);
             ops := [OpOpen; OpMetadata; OpAppend ("- " ++ content e ++ nl)] |}).
Proof.
  intros Hs Ht.
  rewrite run_write_nonempty by exact Hs.
  rewrite Ht; reflexivity.
Qed.

Lemma C8_empty_tags_append_only_witness :
  let s := "---" ++ nl ++ "tags: [a]" ++ nl ++ "---" ++ nl in
  let e := {| content := "note"; tags := [] |} in
  run_write e (Some s) =
  (Ok tt, {| file := Some (s ++ "- " ++ content e ++ nl);
             ops := [OpOpen; OpMetadata; OpAppend ("- " ++ content e ++ nl)] |}).
Proof.
  intros s e; apply C8_empty_tags_append_only; [discriminate | reflexivity].
Defined.

(** C10: when the tags line found is exactly [tags: []], the existing tags
    are [[""]]; the input tag [""] counts as present (the file only gets
    the entry line); and merging a non-empty tag [t] writes
    [tags: [, t]] where [tags: []] first occurs. *)
Theorem C10_empty_brackets_phantom_tag (s : string) :
  s <> "" ->
  tags_captures (split_first delimiter s) = Some ("tags: []", "") ->
  existing_tags_of "" = [""] /\
  (forall c, file (snd (run_write {| content := c; tags := [""] |} (Some s))) =
             Some (s ++ entry_line {| content := c; tags := [""] |})) /\
  (forall c t pre post, t <> "" ->
     s = pre ++ "tags: []" ++ post ->
     occurs_before "tags: []" pre ("tags: []" ++ post) = false ->
     file (snd (run_write {| content := c; tags := [t] |} (Some s))) =
     Some (pre ++ "tags: [, " ++ t ++ "]" ++
           replace "tags: []" ("tags: [, " ++ t ++ "]") post ++ entry_line {| content := c; tags := [t] |})).
Proof.
  intros Hs Hm; split; [reflexivity|]; split.
  - intros c; rewrite run_write_nonempty by exact Hs.
    rewrite (transform_match _ s _ _ Hm); reflexivity.
  - intros c t pre post Ht Hsplit Hocc.
    rewrite run_write_nonempty by exact Hs.
    rewrite (transform_match _ s _ _ Hm).
    assert (Hadd : tags_to_add (existing_tags_of "") (tags {| content := c; tags := [t] |}) = [t]).
    { unfold tags_to_add, contains; cbn.
      destruct (String.eqb t "") eqn:E; [apply String.eqb_eq in E; contradiction | reflexivity]. }
    rewrite Hadd; cbn [tags].
    subst s; rewrite replace_first_occurrence by (assumption || discriminate).
    unfold updated_tags_line; cbn [existing_tags_of split_char map trim trim_start trim_end app join].
    rewrite !str_app_assoc; reflexivity.
Qed.

Lemma C10_empty_brackets_phantom_tag_witness :
  let s := "---" ++ nl ++ "tags: []" ++ nl ++ "---" ++ nl in
  existing_tags_of "" = [""] /\
  (forall c, file (snd (run_write {| content := c; tags := [""] |} (Some s))) =
             Some (s ++ entry_line {| content := c; tags := [""] |})) /\
  (forall c t pre post, t <> "" ->
     s = pre ++ "tags: []" ++ post ->
     occurs_before "tags: []" pre ("tags: []" ++ post) = false ->
     file (snd (run_write {| content := c; tags := [t] |} (Some s))) =
     Some (pre ++ "tags: [, " ++ t ++ "]" ++
           replace "tags: []" ("tags: [, " ++ t ++ "]") post ++ entry_line {| content := c; tags := [t] |})).
Proof.
  intros s; apply C10_empty_brackets_phantom_tag; [discriminate | vm_compute; reflexivity].
Defined.

(** *** Paths and dates *)

Definition is_digit (c : ascii) : bool :=
  let n := nat_of_ascii c in Nat.leb 48 n && Nat.leb n 57.

Definition not_slash (c : ascii) : bool := negb (Ascii.eqb c "/"%char).

Definition valid_date (d : Date) : Prop :=
  1 <= month d <= 12 /\ 1 <= day d <= 31.

Lemma str_forall_app (p : ascii -> bool) (a b : string) :
  str_forall p (a ++ b) = str_forall p a && str_forall p b.
Proof. induction a as [|c a IH]; simpl; [reflexivity | rewrite IH, andb_assoc; reflexivity]. Qed.

Lemma digits_uint (u : Decimal.uint) : str_forall is_digit (NilEmpty.string_of_uint u) = true.
Proof. induction u; simpl; auto. Qed.

Lemma dec_year_chars (y : Z) :
  str_forall (fun c => is_digit c || Ascii.eqb c "-"%char) (dec_year y) = true.
Proof.
  assert (Hu : forall u, str_forall (fun c => is_digit c || Ascii.eqb c "-"%char)
                           (NilZero.string_of_uint u) = true).
  { intros u; unfold NilZero.string_of_uint.
    assert (H : forall s, str_forall is_digit s = true ->
                str_forall (fun c => is_digit c || Ascii.eqb c "-"%char) s = true).
    { induction s as [|c s IH]; simpl; [reflexivity|].
      intros Hc; apply andb_prop in Hc as [H1 H2]; rewrite H1, IH by exact H2; reflexivity. }
    destruct u; try reflexivity; apply H; apply digits_uint. }
  unfold dec_year, NilZero.string_of_int.
  destruct (Z.to_int y); [apply Hu | simpl; apply Hu].
Qed.

Lemma fmt02_chars (n : nat) : str_forall is_digit (fmt02 n) = true.
Proof.
  assert (H : str_forall is_digit (dec_nat n) = true).
  { unfold dec_nat, NilZero.string_of_uint.
    destruct (Nat.to_uint n); try reflexivity; apply digits_uint. }
  unfold fmt02; destruct (Nat.ltb _ 2); [simpl; exact H | exact H].
Qed.

Lemma last_char_app (a b : string) : b <> "" -> last_char (a ++ b) = last_char b.
Proof.
  intros Hb; induction a as [|c a IH]; simpl; [reflexivity|].
  rewrite IH; destruct a; simpl; [destruct b; [congruence | reflexivity] | reflexivity].
Qed.

Lemma last_char_forall (p : ascii -> bool) (s : string) (c : ascii) :
  str_forall p s = true -> last_char s = Some c -> p c = true.
Proof.
  induction s as [|x s IH]; simpl; [discriminate|].
  intros H Hl; apply andb_prop in H as [H1 H2].
  destruct s as [|y s'].
  - inversion Hl; subst; exact H1.
  - apply IH; assumption.
Qed.

Lemma date_checks :
  forallb (fun m => Nat.eqb (length (fmt02 m)) 2) (seq 1 31) = true /\
  forallb (fun m => forallb (fun m' => implb (String.eqb (fmt02 m) (fmt02 m')) (Nat.eqb m m'))
                      (seq 1 31)) (seq 1 31) = true /\
  forallb (fun n => Nat.eqb (length (dec_year (Z.of_nat n))) 4) (seq 1000 (9 * 1000)) = true.
Proof. vm_compute; repeat split. Qed.

Lemma in_range_seq (n : nat) : 1 <= n <= 31 -> In n (seq 1 31).
Proof. intros H; apply in_seq; lia. Qed.

Lemma fmt02_length (n : nat) : 1 <= n <= 31 -> length (fmt02 n) = 2.
Proof.
  intros H; destruct date_checks as [Hc _].
  rewrite forallb_forall in Hc; apply Nat.eqb_eq, Hc, in_range_seq, H.
Qed.

Lemma fmt02_inj (n n' : nat) :
  1 <= n <= 31 -> 1 <= n' <= 31 -> fmt02 n = fmt02 n' -> n = n'.
Proof.
  intros H H' Heq; destruct date_checks as [_ [Hc _]].
  rewrite forallb_forall in Hc; specialize (Hc n (in_range_seq n H)).
  rewrite forallb_forall in Hc; specialize (Hc n' (in_range_seq n' H')).
  rewrite Heq, String.eqb_refl in Hc; apply Nat.eqb_eq; exact Hc.
Qed.

Lemma dec_year_length (y : Z) : (1000 <= y <= 9999)%Z -> length (dec_year y) = 4.
Proof.
  intros H; destruct date_checks as [_ [_ Hc]].
  rewrite forallb_forall in Hc.
  pose proof (Z2Nat.id y ltac:(lia)) as Hid.
  rewrite <- Hid; apply Nat.eqb_eq, Hc, in_seq.
  assert (1000 <= Z.to_nat y)%nat by (apply Nat2Z.inj_le; rewrite Hid; simpl; lia).
  assert (Z.to_nat y <= 9999)%nat by (apply Nat2Z.inj_le; rewrite Hid; simpl; lia).
  split; [assumption|].
  eapply Nat.le_lt_trans; [eassumption | vm_compute; reflexivity].
Qed.

Lemma to_int_not_nil (y : Z) :
  Z.to_int y <> Decimal.Pos Decimal.Nil /\ Z.to_int y <> Decimal.Neg Decimal.Nil.
Proof.
  pose proof (DecimalZ.of_to y) as Hy.
  split; intros H; rewrite H in Hy; simpl in Hy; subst y; discriminate H.
Qed.

Lemma dec_year_inj (y y' : Z) : dec_year y = dec_year y' -> y = y'.
Proof.
  unfold dec_year; intros H.
  destruct (to_int_not_nil y) as [H1 H2]; destruct (to_int_not_nil y') as [H1' H2'].
  apply DecimalZ.to_int_inj.
  pose proof (NilZero.isi _ H1 H2) as E; pose proof (NilZero.isi _ H1' H2') as E'.
  rewrite H, E' in E; injection E as E; symmetry; exact E.
Qed.

Lemma str_app_inv_l (a b b' : string) : a ++ b = a ++ b' -> b = b'.
Proof. induction a as [|c a IH]; simpl; intros H; [exact H | injection H; exact IH]. Qed.

Lemma str_app_inv_len (a a' b b' : string) :
  length a = length a' -> a ++ b = a' ++ b' -> a = a' /\ b = b'.
Proof.
  revert a'; induction a as [|c a IH]; intros [|c' a'] Hl H; simpl in *;
    try discriminate; [split; [reflexivity | exact H]|].
  injection H as -> H; injection Hl as Hl.
  destruct (IH a' Hl H) as [-> ->]; split; reflexivity.
Qed.

Lemma list_ascii_app (a b : string) :
  list_ascii_of_string (a ++ b) = (list_ascii_of_string a ++ list_ascii_of_string b)%list.
Proof. induction a as [|c a IH]; simpl; [reflexivity | rewrite IH; reflexivity]. Qed.

Lemma str_app_inv_r (a a' b : string) : a ++ b = a' ++ b -> a = a'.
Proof.
  intros H; apply (f_equal list_ascii_of_string) in H.
  rewrite !list_ascii_app in H; apply app_inv_tail in H.
  rewrite <- (string_of_list_ascii_of_string a), <- (string_of_list_ascii_of_string a'), H.
  reflexivity.
Qed.


Lemma digits_or_dash (s : string) :
  str_forall is_digit s = true ->
  str_forall (fun c => is_digit c || Ascii.eqb c "-"%char) s = true.
Proof.
  induction s as [|c s IH]; simpl; [reflexivity|].
  intros Hc; apply andb_prop in Hc as [H1 H2]; rewrite H1, IH by exact H2; reflexivity.
Qed.

Lemma format_date_chars (d : Date) :
  str_forall (fun c => is_digit c || Ascii.eqb c "-"%char) (format_date d) = true.
Proof.
  unfold format_date; rewrite !str_forall_app.
  rewrite (digits_or_dash _ (fmt02_chars (month d))), (digits_or_dash _ (fmt02_chars (day d))).
  rewrite dec_year_chars; reflexivity.
Qed.

Lemma format_date_not_empty (d : Date) : format_date d <> "".
Proof.
  unfold format_date, fmt02; destruct (Nat.ltb _ 2);
    [discriminate | destruct (dec_nat (month d)); discriminate].
Qed.

Lemma format_date_no_slash (d : Date) : str_forall not_slash (format_date d) = true.
Proof.
  pose proof (format_date_chars d) as H; revert H.
  generalize (format_date d); induction s as [|c s IH]; simpl; [reflexivity|].
  intros H; apply andb_prop in H as [H1 H2]; rewrite IH by exact H2.
  unfold not_slash; destruct (Ascii.eqb c "/"%char) eqn:E; [|reflexivity].
  apply Ascii.eqb_eq in E; subst c; discriminate H1.
Qed.

Lemma last_char_none (s : string) : last_char s = None -> s = "".
Proof.
  induction s as [|c s IH]; simpl; intros H; [reflexivity|].
  destruct s as [|c' s']; [discriminate | specialize (IH H); discriminate].
Qed.

Lemma str_length_app (a b : string) : length (a ++ b) = length a + length b.
Proof. induction a as [|c a IH]; simpl; [reflexivity | rewrite IH; reflexivity]. Qed.

Lemma scan_plain (n : string) (pos start : nat) (seg : string) (best : option (nat * string)) :
  str_forall not_slash n = true ->
  scan_components n pos start seg best = close_seg start (seg ++ n) best.
Proof.
  revert pos seg; induction n as [|c n IH]; intros pos seg Hn.
  - cbn [scan_components]; rewrite str_app_nil_r; reflexivity.
  - change (not_slash c && str_forall not_slash n = true) in Hn.
    apply andb_prop in Hn as [Hc Hn]; unfold not_slash in Hc; apply negb_true_iff in Hc.
    cbn [scan_components]; rewrite Hc, IH by exact Hn.
    rewrite str_app_assoc; reflexivity.
Qed.

Lemma scan_app_slash (a n : string) (pos start : nat) (seg : string)
    (best : option (nat * string)) :
  exists b, scan_components (a ++ "/" ++ n) pos start seg best =
            scan_components n (S (pos + length a)) (S (pos + length a)) "" b.
Proof.
  revert pos start seg best; induction a as [|c a IH]; intros pos start seg best.
  - exists (close_seg start seg best); rewrite Nat.add_0_r; reflexivity.
  - change (String c a ++ "/" ++ n) with (String c (a ++ "/" ++ n)); cbn [scan_components].
    destruct (Ascii.eqb c "/"%char).
    + destruct (IH (S pos) (S pos) "" (close_seg start seg best)) as [b Hb].
      exists b; rewrite Hb; cbn [length]; f_equal; lia.
    + destruct (IH (S pos) start (seg ++ String c "") best) as [b Hb].
      exists b; rewrite Hb; cbn [length]; f_equal; lia.
Qed.

Lemma scan_app_plain (a n : string) :
  n <> "" -> str_forall not_slash n = true -> n <> "." ->
  scan_components (a ++ "/" ++ n) 0 0 "" None = Some (S (length a), n).
Proof.
  intros Hne Hn Hdot.
  destruct (scan_app_slash a n 0 0 "" None) as [b Hb]; rewrite Hb, scan_plain by exact Hn.
  unfold close_seg; cbn [append].
  destruct (String.eqb n "") eqn:E1; [apply String.eqb_eq in E1; contradiction|].
  destruct (String.eqb n ".") eqn:E2; [apply String.eqb_eq in E2; contradiction|].
  reflexivity.
Qed.

Lemma file_name_pos_app (a n : string) :
  n <> "" -> str_forall not_slash n = true -> n <> "." -> n <> ".." ->
  file_name_pos (a ++ "/" ++ n) = Some (S (length a), n).
Proof.
  intros Hne Hn Hdot Hdd; unfold file_name_pos; rewrite scan_app_plain by assumption.
  destruct (String.eqb n "..") eqn:E; [apply String.eqb_eq in E; contradiction | reflexivity].
Qed.

Lemma has_parent_app (a n : string) :
  n <> "" -> str_forall not_slash n = true -> n <> "." ->
  has_parent (a ++ "/" ++ n) = true.
Proof. intros Hne Hn Hdot; unfold has_parent; rewrite scan_app_plain by assumption; reflexivity. Qed.

Lemma split_last_dot_parts (n a b : string) :
  split_last_dot n = Some (a, b) -> n = a ++ "." ++ b.
Proof.
  revert a b; induction n as [|c n IH]; intros a b H; [discriminate|].
  cbn [split_last_dot] in H; destruct (split_last_dot n) as [[a' b']|] eqn:E.
  - injection H as <- <-; rewrite (IH a' b' eq_refl); reflexivity.
  - destruct (Ascii.eqb c "."%char) eqn:Ec; [|discriminate].
    apply Ascii.eqb_eq in Ec; subst c; injection H as <- <-; reflexivity.
Qed.

Lemma file_stem_prefix (n : string) : exists r, n = file_stem n ++ r.
Proof.
  unfold file_stem; destruct (split_last_dot n) as [[a b]|] eqn:E.
  - destruct a as [|c a]; [exists ""; rewrite str_app_nil_r; reflexivity|].
    rewrite (split_last_dot_parts _ _ _ E); eexists; reflexivity.
  - exists ""; rewrite str_app_nil_r; reflexivity.
Qed.

Lemma substring_prefix (x y : string) : substring 0 (length x) (x ++ y) = x.
Proof. induction x as [|c x IH]; [destruct y; reflexivity | cbn; rewrite IH; reflexivity]. Qed.

(** On a path whose last component is a plain file name, [set_extension]
    replaces the extension of that name; the [parent()] check passes. *)
Lemma finish_path (a n : string) :
  n <> "" -> str_forall not_slash n = true -> n <> "." -> n <> ".." ->
  (if has_parent (set_extension (a ++ "/" ++ n) "md")
   then Ok (set_extension (a ++ "/" ++ n) "md") else Err (CannotFindDir "parent")) =
  Ok (a ++ "/" ++ file_stem n ++ ".md").
Proof.
  intros Hne Hn Hdot Hdd.
  assert (Hse : set_extension (a ++ "/" ++ n) "md" = a ++ "/" ++ file_stem n ++ ".md").
  { unfold set_extension; rewrite file_name_pos_app by assumption.
    destruct (file_stem_prefix n) as [r Hr].
    replace (a ++ "/" ++ n) with ((a ++ "/" ++ file_stem n) ++ r)
      by (rewrite str_app_assoc; cbn [append]; rewrite <- Hr; reflexivity).
    replace (S (length a) + length (file_stem n)) with (length (a ++ "/" ++ file_stem n))
      by (rewrite str_length_app; cbn [append length]; lia).
    rewrite substring_prefix, !str_app_assoc; reflexivity. }
  rewrite Hse, has_parent_app; [reflexivity | | |].
  - destruct (file_stem n); discriminate.
  - destruct (file_stem_prefix n) as [r Hr].
    rewrite Hr, str_forall_app in Hn; apply andb_prop in Hn as [Hs _].
    rewrite str_forall_app, Hs; reflexivity.
  - intros E; apply (f_equal length) in E; rewrite str_length_app in E; cbn [length] in E; lia.
Qed.

Lemma build_path_eq (root : string) (d : Date) :
  root <> "" -> last_char root <> Some "/"%char ->
  build_path (Some root) d = Ok (root ++ "/" ++ format_date d ++ "/default.md").
Proof.
  intros Hr Hl; unfold build_path, path_join, push.
  assert (Hd : starts_with "/" (format_date d) = false).
  { pose proof (format_date_no_slash d) as H; destruct (format_date d) as [|c s];
      [reflexivity|].
    simpl in H; apply andb_prop in H as [H _]; unfold not_slash in H.
    change (starts_with "/" (String c s)) with (Ascii.eqb "/"%char c && starts_with "" s).
    apply negb_true_iff in H; rewrite Ascii.eqb_sym, H; reflexivity. }
  rewrite Hd.
  destruct (last_char root) as [l|] eqn:El.
  2:{ apply last_char_none in El; contradiction. }
  destruct (Ascii.eqb l "/"%char) eqn:E; [apply Ascii.eqb_eq in E; subst; congruence|].
  change (starts_with "/" "default") with false; cbv iota.
  rewrite last_char_app by discriminate.
  rewrite last_char_app by apply format_date_not_empty.
  destruct (last_char (format_date d)) as [l'|] eqn:El'.
  2:{ apply last_char_none in El'; apply format_date_not_empty in El'; contradiction. }
  pose proof (last_char_forall _ _ _ (format_date_no_slash d) El') as Hns.
  unfold not_slash in Hns; apply negb_true_iff in Hns; rewrite Hns.
  cbv zeta; rewrite !str_app_assoc.
  replace (root ++ "/" ++ format_date d ++ "/" ++ "default")
    with ((root ++ "/" ++ format_date d) ++ "/" ++ "default") by (rewrite !str_app_assoc; reflexivity).
  rewrite finish_path by (solve [discriminate | reflexivity]).
  rewrite !str_app_assoc; reflexivity.
Qed.

(** Every root produced by [find_root_dir] is non-empty and does not end in [/]. *)
Lemma find_root_dir_shape (h r : string) :
  find_root_dir (Some h) = Some r -> r <> "" /\ last_char r <> Some "/"%char.
Proof.
  unfold find_root_dir, path_join, push; simpl; intros H; injection H as <-.
  destruct (last_char h) as [l|].
  - destruct (Ascii.eqb l "/"%char);
      (split; [intros E; destruct h; discriminate E
              | rewrite last_char_app by discriminate; discriminate]).
  - split; discriminate.
Qed.

(** C9: for every root [find_root_dir] returns (non-empty, not ending in
    [/]) and every date [Local::now()] can return (a calendar date whose
    year lies between 1970 and 2262 on Linux, so in 1000..9999), the path
    is [root/MM-DD-YYYY/default.md] with month and day zero-padded to two
    digits and a four-digit year; it is a function of root and date, and
    different dates give different paths. *)
Theorem C9_path_resolution (root : string) (d d' : Date) :
  root <> "" -> last_char root <> Some "/"%char ->
  valid_date d -> valid_date d' -> (1000 <= year d <= 9999)%Z ->
  build_path (Some root) d =
    Ok (root ++ "/" ++ fmt02 (month d) ++ "-" ++ fmt02 (day d) ++ "-" ++
        dec_year (year d) ++ "/default.md") /\
  length (fmt02 (month d)) = 2 /\ length (fmt02 (day d)) = 2 /\
  length (dec_year (year d)) = 4 /\
  (build_path (Some root) d = build_path (Some root) d' <-> d = d').
Proof.
  intros Hr Hl [Hm Hd] [Hm' Hd'] Hy.
  rewrite !build_path_eq by assumption.
  split; [unfold format_date; rewrite !str_app_assoc; reflexivity|].
  split; [apply fmt02_length; lia|].
  split; [apply fmt02_length; lia|].
  split; [apply dec_year_length; exact Hy|].
  split; [|intros ->; reflexivity].
  intros H; injection H as H.
  apply str_app_inv_l in H; simpl in H; injection H as H.
  unfold format_date in H; rewrite !str_app_assoc in H.
  apply str_app_inv_len in H as [Em H]; [|rewrite !fmt02_length by lia; reflexivity].
  simpl in H; injection H as H.
  apply str_app_inv_len in H as [Ed H]; [|rewrite !fmt02_length by lia; reflexivity].
  simpl in H; injection H as H.
  apply str_app_inv_r in H; apply dec_year_inj in H.
  apply fmt02_inj in Em; [|lia|lia]; apply fmt02_inj in Ed; [|lia|lia].
  destruct d, d'; simpl in *; subst; reflexivity.
Qed.

Lemma C9_path_resolution_witness :
  let root := "/home/u/.til/notes" in
  let d := {| year := 2026; month := 10; day := 14 |} in
  let d' := {| year := 2026; month := 10; day := 15 |} in
  build_path (Some root) d =
    Ok (root ++ "/" ++ fmt02 (month d) ++ "-" ++ fmt02 (day d) ++ "-" ++
        dec_year (year d) ++ "/default.md") /\
  length (fmt02 (month d)) = 2 /\ length (fmt02 (day d)) = 2 /\
  length (dec_year (year d)) = 4 /\
  (build_path (Some root) d = build_path (Some root) d' <-> d = d').
Proof.
  intros root d d'.
  apply C9_path_resolution;
    [discriminate | discriminate | split; simpl; lia | split; simpl; lia | simpl; lia].
Defined.

(** ** Examples *)

(** The spec's merge example, on a header with an unindented tags line:
    existing [[a, b]], input [[b, c]], result [[a, b, c]]. *)
Example merge_a_b_with_b_c :
  file (snd (run_write {| content := "n"; tags := ["b"; "c"] |}
               (Some ("---" ++ nl ++ "tags: [a, b]" ++ nl ++ "---" ++ nl)))) =
  Some ("---" ++ nl ++ "tags: [a, b, c]" ++ nl ++ "---" ++ nl ++ "- n" ++ nl).
Proof. vm_compute; reflexivity. Qed.

(** ** Further properties of [src/entry.rs] *)

Lemma transform_err (e : Entry) (s : string) (err : Error) :
  transform e s = Err err -> err = CannotParseMetaData.
Proof.
  unfold transform, split_next.
  destruct (tags_captures (split_first delimiter s)) as [[whole cap]|];
    [destruct (tags_to_add _ _); discriminate | intros H; injection H; auto].
Qed.

(** [Entry::write] returns [CannotParseMetaData] exactly when the file is
    non-empty, the tags are non-empty and the header block has no tags
    line (the other errors of [write] come from failing file operations,
    which the model takes to succeed); that error leaves the file as it
    was, after it was opened, its size queried and its content read. *)
Theorem parse_failure_exact (e : Entry) (f : option string) :
  (fst (run_write e f) = Err CannotParseMetaData <->
   exists s, f = Some s /\ s <> "" /\ tags e <> [] /\
             tags_captures (split_first delimiter s) = None) /\
  (fst (run_write e f) = Err CannotParseMetaData ->
   file (snd (run_write e f)) = f /\ ops (snd (run_write e f)) = [OpOpen; OpMetadata; OpRead]).
Proof.
  destruct f as [s|].
  2:{ rewrite run_write_fresh by (left; reflexivity); cbn [fst].
      split; [split; [discriminate | intros [s [Hs _]]; discriminate] | discriminate]. }
  destruct (string_dec s "") as [->|Hs].
  { rewrite run_write_fresh by (right; reflexivity); cbn [fst].
    split; [split; [discriminate | intros [s [Hs [Hne _]]]; injection Hs as <-; congruence]
           | discriminate]. }
  rewrite run_write_nonempty by exact Hs.
  destruct (tags e) as [|t ts] eqn:Ht.
  { cbn [fst]; split; [split; [discriminate | intros [s' [_ [_ [Hn _]]]]; congruence]
                      | discriminate]. }
  destruct (tags_captures (split_first delimiter s)) as [[whole cap]|] eqn:Hc.
  - rewrite (transform_match e s whole cap Hc); cbn [fst].
    split; [split; [discriminate | intros [s' [Es [_ [_ Hn]]]]; injection Es as <-; congruence]
           | discriminate].
  - rewrite (transform_no_match e s Hc); cbn [fst snd file ops].
    split; [split; [intros _; exists s; repeat split; assumption || discriminate | reflexivity]
           | split; reflexivity].
Qed.

(** A successful [Entry::write] leaves the file ending in the entry line
    [- content\n], written by its last operation; on a missing or empty
    file what precedes it is the generated header. *)
Theorem write_success_ends_with_entry (e : Entry) (f : option string) (u : unit) (st : FS) :
  run_write e f = (Ok u, st) ->
  exists pre before,
    file st = Some (pre ++ entry_line e) /\
    ops st = (before ++ [OpAppend (entry_line e)])%list /\
    ((f = None \/ f = Some "") -> pre = generate_meta e).
Proof.
  intros H.
  assert (Hfresh : forall g, (g = None \/ g = Some "") -> run_write e g = (Ok u, st) ->
            exists pre before, file st = Some (pre ++ entry_line e) /\
              ops st = (before ++ [OpAppend (entry_line e)])%list /\ pre = generate_meta e).
  { intros g Hg Hw; rewrite run_write_fresh in Hw by exact Hg; injection Hw as _ <-.
    exists (generate_meta e), [OpOpen; OpMetadata; OpAppend (generate_meta e)].
    repeat split; reflexivity. }
  destruct f as [s|].
  2:{ destruct (Hfresh None (or_introl eq_refl) H) as [pre [before [H1 [H2 H3]]]].
      exists pre, before; repeat split; auto. }
  destruct (string_dec s "") as [->|Hs].
  { destruct (Hfresh (Some "") (or_intror eq_refl) H) as [pre [before [H1 [H2 H3]]]].
    exists pre, before; repeat split; auto. }
  assert (Hnf : ~ (Some s = None \/ Some s = Some "")) by (intros [E|E]; congruence).
  rewrite run_write_nonempty in H by exact Hs.
  destruct (tags e) as [|t ts].
  - injection H as _ <-.
    exists s, [OpOpen; OpMetadata]; repeat split; [intros Hc; contradiction].
  - destruct (transform e s) as [s'|err]; [|discriminate].
    injection H as _ <-.
    exists s', [OpOpen; OpMetadata; OpRead; OpOverwrite s']; repeat split.
    intros Hc; contradiction.
Qed.

Lemma write_success_ends_with_entry_witness :
  let e := {| content := "x"; tags := ["a"] |} in
  exists pre before,
    file (snd (run_write e None)) = Some (pre ++ entry_line e) /\
    ops (snd (run_write e None)) = (before ++ [OpAppend (entry_line e)])%list /\
    ((@None string = None \/ @None string = Some "") -> pre = generate_meta e).
Proof.
  intros e.
  apply (write_success_ends_with_entry e None tt).
  vm_compute; reflexivity.
Defined.

Lemma no_t_line_rejects (e : Entry) (s : string) :
  s <> "" -> no_t_line true s = true -> tags e <> [] ->
  run_write e (Some s) =
  (Err CannotParseMetaData, {| file := Some s; ops := [OpOpen; OpMetadata; OpRead] |}).
Proof.
  intros Hs Hn Ht.
  rewrite run_write_nonempty by exact Hs.
  rewrite transform_no_match.
  - destruct (tags e); [congruence | reflexivity].
  - destruct (split_first_prefix delimiter s) as [r Hr].
    apply no_t_line_search.
    rewrite Hr, no_t_line_app in Hn; apply andb_prop in Hn as [Hn _]; exact Hn.
Qed.

Lemma no_t_line_entry (b : bool) (e : Entry) :
  no_nl (content e) = true -> no_t_line b (entry_line e) = true.
Proof.
  intros Hc; unfold entry_line; simpl.
  rewrite orb_true_r; simpl.
  change (Ascii.eqb " "%char nl_c) with false.
  rewrite no_t_line_nl_free by exact Hc; reflexivity.
Qed.

Definition has_no_tags (e : Entry) : bool :=
  match tags e with [] => true | _ => false end.

Lemma run_writes_no_t_line (rest : list Entry) (acc : string) :
  acc <> "" -> no_t_line true acc = true ->
  Forall (fun e => no_nl (content e) = true) rest ->
  run_writes rest (Some acc) =
  Some (acc ++ fold_right append "" (map entry_line (filter has_no_tags rest))).
Proof.
  revert acc; induction rest as [|e rest IH]; intros acc Ha Hn Hall; simpl.
  - rewrite str_app_nil_r; reflexivity.
  - inversion Hall as [|? ? Hc Hrest]; subst.
    unfold has_no_tags at 1; destruct (tags e) as [|t ts] eqn:Ht.
    + rewrite run_write_nonempty by exact Ha; rewrite Ht; simpl.
      rewrite IH; [rewrite str_app_assoc; reflexivity | | | exact Hrest].
      * destruct acc; [congruence | discriminate].
      * rewrite no_t_line_app, Hn, no_t_line_entry by exact Hc; reflexivity.
    + rewrite no_t_line_rejects by (assumption || congruence); simpl.
      apply IH; assumption.
Qed.

Lemma no_t_line_entries (b : bool) (l : list Entry) :
  Forall (fun e => no_nl (content e) = true) l ->
  no_t_line b (fold_right append "" (map entry_line l)) = true.
Proof.
  revert b; induction l as [|e l IH]; intros b Hall; [reflexivity|].
  inversion Hall as [|? ? Hc Hl]; subst; cbn [map fold_right].
  rewrite no_t_line_app, no_t_line_entry, IH by assumption; reflexivity.
Qed.

Lemma run_writes_from_none (e0 : Entry) (rest : list Entry) :
  no_nl (content e0) = true -> Forall (fun t => no_nl t = true) (tags e0) ->
  Forall (fun e => no_nl (content e) = true) rest ->
  run_writes (e0 :: rest) None =
  Some (generate_meta e0 ++ entry_line e0 ++
        fold_right append "" (map entry_line (filter has_no_tags rest))).
Proof.
  intros Hc Ht Hall; cbn [run_writes].
  rewrite run_write_fresh by (left; reflexivity); cbn [snd file].
  rewrite run_writes_no_t_line.
  - rewrite str_app_assoc; reflexivity.
  - unfold generate_meta; discriminate.
  - apply created_file_no_t_line; assumption.
  - exact Hall.
Qed.

(** Reachable files: starting from a missing file, a first write with
    newline-free content and tags creates the header; every later write
    (with newline-free content) succeeds and appends its entry line when it
    has no tags, and fails with [CannotParseMetaData], changing nothing,
    when it has tags.  The header written first is never updated. *)
Theorem header_never_updated (e0 : Entry) (rest : list Entry) :
  no_nl (content e0) = true -> Forall (fun t => no_nl t = true) (tags e0) ->
  Forall (fun e => no_nl (content e) = true) rest ->
  run_writes (e0 :: rest) None =
  Some (generate_meta e0 ++ entry_line e0 ++
        fold_right append "" (map entry_line (filter has_no_tags rest))) /\
  (forall pre e post, rest = (pre ++ e :: post)%list ->
   fst (run_write e (run_writes (e0 :: pre) None)) =
   if has_no_tags e then Ok tt else Err CannotParseMetaData).
Proof.
  intros Hc Ht Hall; split; [apply run_writes_from_none; assumption|].
  intros pre e post ->.
  apply Forall_app in Hall as [Hpre Hepost]; inversion Hepost as [|? ? He _]; subst.
  rewrite run_writes_from_none by assumption.
  set (acc := generate_meta e0 ++ entry_line e0 ++
              fold_right append "" (map entry_line (filter has_no_tags pre))).
  assert (Hne : acc <> "") by (unfold acc, generate_meta; discriminate).
  assert (Hn : no_t_line true acc = true).
  { unfold acc; rewrite <- str_app_assoc, no_t_line_app, created_file_no_t_line by assumption.
    rewrite no_t_line_entries; [reflexivity|].
    apply Forall_forall; intros x Hx; apply filter_In in Hx as [Hx _].
    rewrite Forall_forall in Hpre; apply Hpre, Hx. }
  unfold has_no_tags; destruct (tags e) as [|t ts] eqn:Het.
  - rewrite run_write_nonempty by exact Hne; rewrite Het; reflexivity.
  - rewrite no_t_line_rejects by (assumption || congruence); reflexivity.
Qed.

Lemma header_never_updated_witness :
  let e0 := {| content := "one"; tags := ["a"] |} in
  let rest := [{| content := "two"; tags := ["b"] |}; {| content := "three"; tags := [] |}] in
  run_writes (e0 :: rest) None =
  Some (generate_meta e0 ++ entry_line e0 ++
        fold_right append "" (map entry_line (filter has_no_tags rest))) /\
  (forall pre e post, rest = (pre ++ e :: post)%list ->
   fst (run_write e (run_writes (e0 :: pre) None)) =
   if has_no_tags e then Ok tt else Err CannotParseMetaData).
Proof.
  intros e0 rest.
  apply header_never_updated; [reflexivity | repeat constructor | repeat constructor].
Defined.

(** The tags the merge adds keep the multiplicity they have in the input:
    a tag absent from the existing ones is added as many times as it is
    given (duplicates in the input are not removed), and a tag already
    present is never added. *)
Theorem tags_to_add_count (existing input : list string) (t : string) :
  count_occ string_dec (tags_to_add existing input) t =
  if in_dec string_dec t existing then 0 else count_occ string_dec input t.
Proof.
  rewrite tags_to_add_spec; unfold spec_new_tags.
  induction input as [|x xs IH]; simpl; [destruct (in_dec string_dec t existing); reflexivity|].
  destruct (in_dec string_dec x existing) as [Hx|Hx]; simpl.
  - rewrite IH; destruct (string_dec x t); [subst|]; destruct (in_dec string_dec t existing);
      [reflexivity | contradiction | reflexivity | reflexivity].
  - destruct (string_dec x t) as [->|Hne]; rewrite IH;
      destruct (in_dec string_dec t existing); [contradiction | reflexivity | reflexivity | reflexivity].
Qed.

(** *** Reading back a tags line *)

Definition not_comma (c : ascii) : bool := negb (Ascii.eqb c ","%char).

Lemma split_char_not_nil (s : string) : split_char "," s <> [].
Proof.
  destruct s as [|c s]; simpl; [discriminate|].
  destruct (Ascii.eqb c ","%char); [discriminate|].
  destruct (split_char "," s); discriminate.
Qed.

Lemma split_char_plain (x : string) :
  str_forall not_comma x = true -> split_char "," x = [x].
Proof.
  induction x as [|c x IH]; simpl; intros H; [reflexivity|].
  apply andb_prop in H as [H1 H2]; unfold not_comma in H1; apply negb_true_iff in H1.
  rewrite H1, IH by exact H2; reflexivity.
Qed.

Lemma split_char_sep (x y : string) :
  str_forall not_comma x = true -> split_char "," (x ++ "," ++ y) = x :: split_char "," y.
Proof.
  induction x as [|c x IH]; simpl; intros H; [reflexivity|].
  apply andb_prop in H as [H1 H2]; unfold not_comma in H1; apply negb_true_iff in H1.
  rewrite H1; simpl in IH; rewrite IH by exact H2; reflexivity.
Qed.

Lemma split_char_space (z : string) :
  split_char "," (" " ++ z) =
  match split_char "," z with [] => [" "] | h :: tl => String " " h :: tl end.
Proof. reflexivity. Qed.

Lemma trim_space (h : string) : trim (String " " h) = trim h.
Proof. reflexivity. Qed.

Lemma trim_end_keep (t : string) (c : ascii) :
  last_char t = Some c -> is_ws c = false -> trim_end t = t.
Proof.
  induction t as [|x t IH]; simpl; intros Hl Hc; [discriminate|].
  destruct t as [|y t'].
  - injection Hl as ->; rewrite Hc; reflexivity.
  - rewrite IH by assumption; reflexivity.
Qed.

Lemma clean_tag_no_comma (t : string) : clean_tag t = true -> str_forall not_comma t = true.
Proof.
  unfold clean_tag; intros H; apply andb_prop in H as [H _]; apply andb_prop in H as [H _].
  revert H; induction t as [|c t IH]; simpl; [reflexivity|].
  intros H; apply andb_prop in H as [H1 H2]; apply andb_prop in H1 as [H1 _];
    apply andb_prop in H1 as [H1 _].
  change (not_comma c) with (negb (Ascii.eqb c ","%char)); rewrite H1, IH by exact H2; reflexivity.
Qed.

Lemma trim_clean (t : string) : clean_tag t = true -> trim t = t.
Proof.
  unfold clean_tag, trim; intros H; apply andb_prop in H as [H Hlast];
    apply andb_prop in H as [_ Hfirst].
  destruct t as [|c t]; [discriminate|].
  simpl in Hfirst; apply negb_true_iff in Hfirst; simpl; rewrite Hfirst.
  destruct (last_char (String c t)) as [l|] eqn:El; [|discriminate].
  apply negb_true_iff in Hlast; exact (trim_end_keep _ _ El Hlast).
Qed.

Lemma existing_tags_of_join_items (l : list string) :
  l <> [] -> forallb clean_tag l = true -> existing_tags_of (join ", " l) = l.
Proof.
  unfold existing_tags_of.
  induction l as [|x xs IH]; intros Hne Hc; [congruence|].
  simpl in Hc; apply andb_prop in Hc as [Hx Hxs].
  destruct xs as [|y ys].
  - simpl; rewrite split_char_plain by (apply clean_tag_no_comma; exact Hx).
    simpl; rewrite trim_clean by exact Hx; reflexivity.
  - change (join ", " (x :: y :: ys)) with (x ++ "," ++ " " ++ join ", " (y :: ys)).
    rewrite split_char_sep by (apply clean_tag_no_comma; exact Hx).
    rewrite split_char_space.
    specialize (IH ltac:(discriminate) Hxs).
    destruct (split_char "," (join ", " (y :: ys))) as [|h tl] eqn:Es;
      [exfalso; exact (split_char_not_nil _ Es)|].
    cbn [map] in IH |- *; rewrite trim_space, trim_clean by exact Hx; rewrite IH; reflexivity.
Qed.

(** Joining clean tags with [", "] and reading them back as [update_meta]
    does (split on commas, trim each item) gives the same list. *)
Theorem existing_tags_of_join (l : list string) :
  l <> [] -> forallb clean_tag l = true -> existing_tags_of (join ", " l) = l.
Proof. exact (existing_tags_of_join_items l). Qed.

Lemma existing_tags_of_join_witness :
  existing_tags_of (join ", " ["rust"; "note taking"; "C++"]) = ["rust"; "note taking"; "C++"].
Proof. apply existing_tags_of_join; [discriminate | vm_compute; reflexivity]. Defined.

(** *** A file that starts with its tags line *)

Definition item_char (c : ascii) : bool :=
  negb (Ascii.eqb c "]"%char) && negb (Ascii.eqb c nl_c).

Lemma lazy_close_items (items post : string) :
  str_forall item_char items = true -> at_eol post = true ->
  lazy_close (items ++ "]" ++ post) = Some items.
Proof.
  intros Hi Hp; induction items as [|c items IH]; simpl.
  - rewrite Hp; reflexivity.
  - simpl in Hi; apply andb_prop in Hi as [H1 H2]; unfold item_char in H1.
    apply andb_prop in H1 as [Hb Hn]; apply negb_true_iff in Hb, Hn.
    simpl in IH; rewrite Hb, Hn; simpl; rewrite IH by exact H2; reflexivity.
Qed.

Lemma substring_all (r : string) (m : nat) : length r <= m -> substring 0 m r = r.
Proof.
  revert m; induction r as [|c r IH]; intros m Hm; simpl; [destruct m; reflexivity|].
  destruct m as [|m]; simpl in Hm; [lia|]; rewrite IH by lia; reflexivity.
Qed.

Lemma length_str_app (a b : string) : length (a ++ b) = length a + length b.
Proof. induction a as [|c a IH]; simpl; [reflexivity | rewrite IH; reflexivity]. Qed.

Lemma match_here_line (items post : string) :
  str_forall item_char items = true -> at_eol post = true ->
  match_here ("tags: [" ++ items ++ "]" ++ post) = Some ("tags: [" ++ items ++ "]", items).
Proof.
  intros Hi Hp; unfold match_here.
  change ("tags: [" ++ items ++ "]" ++ post) with ("tags:" ++ " [" ++ items ++ "]" ++ post).
  rewrite starts_with_app.
  change (substring 5 (length ("tags:" ++ " [" ++ items ++ "]" ++ post))
            ("tags:" ++ " [" ++ items ++ "]" ++ post))
    with (substring 0 (length ("tags:" ++ " [" ++ items ++ "]" ++ post))
            (" [" ++ items ++ "]" ++ post)).
  rewrite substring_all by (rewrite (length_str_app "tags:"); lia).
  simpl.
  rewrite (lazy_close_items items post Hi Hp : lazy_close (items ++ String "]" post) = Some items).
  reflexivity.
Qed.

Lemma split_first_cons (d : string) (c : ascii) (s : string) :
  split_first d (String c s) = if starts_with d (String c s) then "" else String c (split_first d s).
Proof. reflexivity. Qed.

Lemma split_first_nl_free (x y : string) :
  no_nl x = true -> split_first delimiter (x ++ y) = x ++ split_first delimiter y.
Proof.
  induction x as [|c x IH]; intros H; [reflexivity|].
  unfold no_nl in H; simpl in H; apply andb_prop in H as [H1 H2]; apply negb_true_iff in H1.
  change (String c x ++ y) with (String c (x ++ y)); rewrite split_first_cons.
  change (starts_with delimiter (String c (x ++ y)))
    with (Ascii.eqb nl_c c && starts_with ("---" ++ nl) (x ++ y)).
  rewrite Ascii.eqb_sym, H1, IH by exact H2; reflexivity.
Qed.

Lemma at_eol_split_nl (rest : string) : at_eol (split_first delimiter (nl ++ rest)) = true.
Proof.
  change (nl ++ rest) with (String nl_c rest); rewrite split_first_cons.
  destruct (starts_with delimiter (String nl_c rest)); [reflexivity|].
  apply Ascii.eqb_refl.
Qed.

Lemma item_chars_no_nl (items : string) : str_forall item_char items = true -> no_nl items = true.
Proof.
  induction items as [|c items IH]; simpl; [reflexivity|].
  intros H; apply andb_prop in H as [H1 H2]; unfold item_char in H1.
  apply andb_prop in H1 as [_ H1]; unfold no_nl; simpl; rewrite H1; exact (IH H2).
Qed.

Lemma search_here (s : string) (r : string * string) :
  match_here s = Some r -> tags_captures s = Some r.
Proof. unfold tags_captures; intros H; destruct s; cbn [search]; rewrite H; reflexivity. Qed.

Lemma tags_captures_first_line (items rest : string) :
  str_forall item_char items = true ->
  tags_captures (split_first delimiter ("tags: [" ++ items ++ "]" ++ nl ++ rest)) =
  Some ("tags: [" ++ items ++ "]", items).
Proof.
  intros Hi.
  replace ("tags: [" ++ items ++ "]" ++ nl ++ rest)
    with (("tags: [" ++ items ++ "]") ++ nl ++ rest) by (rewrite !str_app_assoc; reflexivity).
  rewrite split_first_nl_free.
  2:{ rewrite !no_nl_app, (item_chars_no_nl items Hi); reflexivity. }
  rewrite !str_app_assoc.
  apply search_here, match_here_line; [exact Hi | apply at_eol_split_nl].
Qed.

Lemma clean_tag_items (t : string) : clean_tag t = true -> str_forall item_char t = true.
Proof.
  unfold clean_tag; intros H; apply andb_prop in H as [H _]; apply andb_prop in H as [H _].
  revert H; induction t as [|c t IH]; simpl; [reflexivity|].
  intros H; apply andb_prop in H as [H1 H2]; apply andb_prop in H1 as [H1 Hn];
    apply andb_prop in H1 as [_ Hb].
  unfold item_char at 1; rewrite Hb, Hn, IH by exact H2; reflexivity.
Qed.

Lemma join_item_chars (l : list string) :
  forallb clean_tag l = true -> str_forall item_char (join ", " l) = true.
Proof.
  induction l as [|x xs IH]; intros H; [reflexivity|].
  simpl in H; apply andb_prop in H as [Hx Hxs].
  destruct xs as [|y ys]; [apply clean_tag_items; exact Hx|].
  change (join ", " (x :: y :: ys)) with (x ++ ", " ++ join ", " (y :: ys)).
  rewrite !str_forall_app, clean_tag_items, IH by assumption; reflexivity.
Qed.

Lemma replace_at_start (from to post : string) :
  from <> "" -> replace from to (from ++ post) = to ++ replace from to post.
Proof. intros H; exact (replace_first_occurrence from to "" post H eq_refl). Qed.

Lemma replace_nl (x to r : string) :
  replace ("tags: [" ++ x) to (nl ++ r) = nl ++ replace ("tags: [" ++ x) to r.
Proof.
  unfold replace; change (nl ++ r) with (String nl_c r).
  change (replace_go ("tags: [" ++ x) to 0 (String nl_c r))
    with (if starts_with ("tags: [" ++ x) (String nl_c r)
          then to ++ replace_go ("tags: [" ++ x) to (pred (length ("tags: [" ++ x))) r
          else String nl_c (replace_go ("tags: [" ++ x) to 0 r)).
  change (starts_with ("tags: [" ++ x) (String nl_c r)) with false; reflexivity.
Qed.

Lemma merge_first_line (e : Entry) (L : list string) (rest : string) :
  L <> [] -> forallb clean_tag L = true -> tags e <> [] ->
  file (snd (run_write e (Some ("tags: [" ++ join ", " L ++ "]" ++ nl ++ rest)))) =
  Some ("tags: [" ++ join ", " (L ++ tags_to_add L (tags e))%list ++ "]" ++ nl ++
        (match tags_to_add L (tags e) with
         | [] => rest
         | added => replace ("tags: [" ++ join ", " L ++ "]")
                      ("tags: [" ++ join ", " (L ++ added)%list ++ "]") rest
         end) ++ entry_line e).
Proof.
  intros HL Hc Ht.
  rewrite run_write_nonempty by discriminate.
  rewrite (transform_match e _ _ _ (tags_captures_first_line _ rest (join_item_chars L Hc))).
  rewrite (existing_tags_of_join_items L HL Hc).
  destruct (tags e) as [|t ts] eqn:Et; [congruence|].
  rewrite <- Et.
  destruct (tags_to_add L (tags e)) as [|a al] eqn:Ea; cbn [snd file].
  - rewrite app_nil_r, !str_app_assoc; reflexivity.
  - f_equal. unfold updated_tags_line.
    replace ("tags: [" ++ join ", " L ++ "]" ++ nl ++ rest)
      with (("tags: [" ++ join ", " L ++ "]") ++ nl ++ rest) by (rewrite !str_app_assoc; reflexivity).
    rewrite replace_at_start by discriminate.
    rewrite replace_nl, !str_app_assoc; reflexivity.
Qed.

Lemma forallb_filter_keep {A} (p q : A -> bool) (l : list A) :
  forallb p l = true -> forallb p (filter q l) = true.
Proof.
  induction l as [|x xs IH]; simpl; [reflexivity|].
  intros H; apply andb_prop in H as [Hx Hxs]; destruct (q x); simpl;
    [rewrite Hx|]; apply IH; exact Hxs.
Qed.

(** Merging a list of clean tags into a file that starts with its tags
    line keeps the existing tags, in order, before the added ones; writing
    the same tags again only appends the entry line: the merge is stable
    under repetition. *)
Theorem merge_then_remerge (e : Entry) (L : list string) (rest : string) :
  L <> [] -> forallb clean_tag L = true -> forallb clean_tag (tags e) = true ->
  tags e <> [] ->
  let s := "tags: [" ++ join ", " L ++ "]" ++ nl ++ rest in
  let file1 := file (snd (run_write e (Some s))) in
  (exists rest', file1 = Some ("tags: [" ++ join ", " (L ++ tags_to_add L (tags e))%list ++ "]" ++
                               nl ++ rest')) /\
  file (snd (run_write e file1)) = option_map (fun x => x ++ entry_line e) file1.
Proof.
  intros HL Hc Hte Ht s file1.
  assert (H1 := merge_first_line e L rest HL Hc Ht).
  fold s file1 in H1.
  split; [eexists; exact H1|].
  rewrite H1.
  set (L' := (L ++ tags_to_add L (tags e))%list).
  assert (HL' : L' <> []) by (unfold L'; destruct L; [congruence | discriminate]).
  assert (Hc' : forallb clean_tag L' = true).
  { unfold L'; rewrite forallb_app, Hc; unfold tags_to_add; apply forallb_filter_keep; exact Hte. }
  assert (Hnone : tags_to_add L' (tags e) = []).
  { apply tags_to_add_all_present, Forall_forall; intros t Hin; unfold L'.
    apply in_or_app; destruct (contains L t) eqn:Hct; [left; apply contains_In; exact Hct|].
    right; unfold tags_to_add; apply filter_In; rewrite Hct; split; [exact Hin | reflexivity]. }
  rewrite (merge_first_line e L' _ HL' Hc' Ht), Hnone, app_nil_r; cbn [option_map].
  rewrite !str_app_assoc; reflexivity.
Qed.

Lemma merge_then_remerge_witness :
  let e := {| content := "n"; tags := ["b"; "c"] |} in
  let L := ["a"; "b"] in
  let s := "tags: [" ++ join ", " L ++ "]" ++ nl ++ "- old" ++ nl in
  let file1 := file (snd (run_write e (Some s))) in
  (exists rest', file1 = Some ("tags: [" ++ join ", " (L ++ tags_to_add L (tags e))%list ++ "]" ++
                               nl ++ rest')) /\
  file (snd (run_write e file1)) = option_map (fun x => x ++ entry_line e) file1.
Proof.
  intros e L s file1.
  apply merge_then_remerge; [discriminate | reflexivity | reflexivity | discriminate].
Defined.

(** *** The command-line entry of [src/main.rs] *)

Lemma main_write_state (e : Main.Entry) (f : option string) :
  Main.run_write e f =
  (Ok tt, {| file := Some (match f with None => "" | Some s => s end ++ "- " ++ Main.message e ++ nl);
             ops := [OpOpen; OpAppend ("- " ++ Main.message e ++ nl)] |}).
Proof. destruct f; reflexivity. Qed.

(** Successive [that] commands on the same path leave the earlier content
    followed by one [- message] line per command, in order. *)
Theorem main_writes_accumulate (es : list Main.Entry) (f : option string) :
  es <> [] ->
  Main.run_writes es f =
    Some (match f with None => "" | Some s => s end ++
          fold_right append "" (map (fun e => "- " ++ Main.message e ++ nl) es)).
Proof.
  revert f; induction es as [|e es IH]; intros f Hne; [congruence|].
  cbn [Main.run_writes map fold_right]; rewrite main_write_state; cbn [snd file].
  destruct es as [|e' es'].
  - cbn [Main.run_writes map fold_right]; rewrite str_app_nil_r; reflexivity.
  - rewrite IH by discriminate; rewrite !str_app_assoc; reflexivity.
Qed.

Lemma main_writes_accumulate_witness :
  [{| Main.message := "a"; Main.title := "t" |}; {| Main.message := "b"; Main.title := "t" |}] <> [] /\
  Main.run_writes [{| Main.message := "a"; Main.title := "t" |};
                   {| Main.message := "b"; Main.title := "t" |}] (Some "x") =
    Some ("x" ++ fold_right append ""
                  (map (fun e => "- " ++ Main.message e ++ nl)
                     [{| Main.message := "a"; Main.title := "t" |};
                      {| Main.message := "b"; Main.title := "t" |}])).
Proof. split; [discriminate | apply main_writes_accumulate; discriminate]. Defined.

Lemma dec_nat_chars (n : nat) : str_forall is_digit (dec_nat n) = true.
Proof.
  unfold dec_nat, NilZero.string_of_uint.
  destruct (Nat.to_uint n); try reflexivity; apply digits_uint.
Qed.

Lemma dec_nat_not_empty (n : nat) : dec_nat n <> "".
Proof. unfold dec_nat, NilZero.string_of_uint; destruct (Nat.to_uint n); discriminate. Qed.

Lemma digits_no_slash (s : string) :
  str_forall (fun c => is_digit c || Ascii.eqb c "-"%char) s = true -> str_forall not_slash s = true.
Proof.
  induction s as [|c s IH]; simpl; [reflexivity|].
  intros H; apply andb_prop in H as [H1 H2]; rewrite IH by exact H2.
  unfold not_slash; destruct (Ascii.eqb c "/"%char) eqn:E; [|reflexivity].
  apply Ascii.eqb_eq in E; subst c; discriminate H1.
Qed.

Lemma main_format_date_no_slash (d : Date) : str_forall not_slash (Main.format_date d) = true.
Proof.
  apply digits_no_slash; unfold Main.format_date; rewrite !str_forall_app.
  rewrite (digits_or_dash _ (dec_nat_chars (month d))), (digits_or_dash _ (dec_nat_chars (day d))).
  rewrite dec_year_chars; reflexivity.
Qed.

Lemma main_format_date_not_empty (d : Date) : Main.format_date d <> "".
Proof.
  unfold Main.format_date; pose proof (dec_nat_not_empty (month d)) as H.
  destruct (dec_nat (month d)); [contradiction | discriminate].
Qed.

Lemma no_slash_start (s : string) : str_forall not_slash s = true -> starts_with "/" s = false.
Proof.
  destruct s as [|c s]; [reflexivity|]; intros H.
  change (not_slash c && str_forall not_slash s = true) in H.
  apply andb_prop in H as [Hc _]; unfold not_slash in Hc.
  change (starts_with "/" (String c s)) with (Ascii.eqb "/"%char c && starts_with "" s).
  apply negb_true_iff in Hc; rewrite Ascii.eqb_sym, Hc; reflexivity.
Qed.

Lemma push_relative (p c : string) :
  p <> "" -> last_char p <> Some "/"%char -> starts_with "/" c = false ->
  push p c = p ++ "/" ++ c.
Proof.
  intros Hp Hl Hc; unfold push; rewrite Hc.
  destruct (last_char p) as [l|] eqn:El; [|apply last_char_none in El; contradiction].
  destruct (Ascii.eqb l "/"%char) eqn:E; [apply Ascii.eqb_eq in E; subst; congruence | reflexivity].
Qed.

Lemma no_slash_last (s : string) :
  s <> "" -> str_forall not_slash s = true -> last_char s <> Some "/"%char.
Proof.
  intros Hs H Hl; pose proof (last_char_forall _ _ _ H Hl) as Hn; discriminate Hn.
Qed.

Lemma main_build_path_rel_eq (root : string) (d : Date) (e : Main.Entry) :
  root <> "" -> last_char root <> Some "/"%char ->
  Main.title e <> "" -> str_forall not_slash (Main.title e) = true ->
  Main.title e <> "." -> Main.title e <> ".." ->
  Main.build_path (Some root) d e =
    Ok (root ++ "/" ++ Main.format_date d ++ "/" ++ file_stem (Main.title e) ++ ".md").
Proof.
  intros Hr Hl Ht Hts Hdot Hdd; unfold Main.build_path, path_join.
  rewrite (push_relative root) by (try assumption; apply no_slash_start, main_format_date_no_slash).
  rewrite push_relative.
  2:{ intros E; destruct root; [congruence | discriminate E]. }
  2:{ rewrite !last_char_app by (try discriminate; apply main_format_date_not_empty).
      apply no_slash_last; [apply main_format_date_not_empty | apply main_format_date_no_slash]. }
  2:{ apply no_slash_start, Hts. }
  cbv zeta.
  replace (root ++ "/" ++ Main.format_date d ++ "/" ++ Main.title e)
    with ((root ++ "/" ++ Main.format_date d) ++ "/" ++ Main.title e)
    by (rewrite !str_app_assoc; reflexivity).
  rewrite finish_path by assumption.
  rewrite !str_app_assoc; reflexivity.
Qed.

(** For a root that is non-empty and does not end in [/] and a title that
    is a plain file name (non-empty, without [/], neither [.] nor [..], the
    names on which [set_extension] replaces the extension), [main.rs]
    files the entry as [root/M-D-Y/stem.md]: month and day unpadded, any
    extension of the title replaced by [md]. *)
Theorem main_build_path_relative (root : string) (d : Date) (e : Main.Entry) :
  root <> "" -> last_char root <> Some "/"%char ->
  Main.title e <> "" -> str_forall not_slash (Main.title e) = true ->
  Main.title e <> "." -> Main.title e <> ".." ->
  Main.build_path (Some root) d e =
    Ok (root ++ "/" ++ Main.format_date d ++ "/" ++ file_stem (Main.title e) ++ ".md").
Proof. exact (main_build_path_rel_eq root d e). Qed.

Lemma main_build_path_relative_witness :
  Main.build_path (Some "/home/u/.til/notes") {| year := 2026; month := 3; day := 7 |}
    {| Main.message := "m"; Main.title := "rust.txt" |} =
    Ok ("/home/u/.til/notes" ++ "/" ++ Main.format_date {| year := 2026; month := 3; day := 7 |} ++
        "/" ++ file_stem "rust.txt" ++ ".md").
Proof.
  apply (main_build_path_relative "/home/u/.til/notes" _
           {| Main.message := "m"; Main.title := "rust.txt" |});
    cbn [Main.title]; solve [discriminate | reflexivity].
Defined.

(** A title that starts with [/] discards the root and the date: [push]
    replaces the whole path with it.  When its last component is a plain
    file name, the entry is written at that absolute path with the
    extension replaced by [md], outside the notes directory, whatever the
    root and the date. *)
Theorem main_build_path_absolute (root : string) (d : Date) (e : Main.Entry) (a n : string) :
  starts_with "/" (Main.title e) = true -> Main.title e = a ++ "/" ++ n ->
  n <> "" -> str_forall not_slash n = true -> n <> "." -> n <> ".." ->
  Main.build_path (Some root) d e = Ok (a ++ "/" ++ file_stem n ++ ".md").
Proof.
  intros Hs Ht Hne Hn Hdot Hdd; unfold Main.build_path, path_join, push; rewrite !Hs.
  cbv zeta; rewrite Ht; exact (finish_path a n Hne Hn Hdot Hdd).
Qed.

Lemma main_build_path_absolute_witness :
  Main.build_path (Some "/home/u/.til/notes") {| year := 2026; month := 3; day := 7 |}
    {| Main.message := "m"; Main.title := "/tmp/x.txt" |} =
    Ok ("/tmp" ++ "/" ++ file_stem "x.txt" ++ ".md").
Proof.
  apply (main_build_path_absolute _ _ {| Main.message := "m"; Main.title := "/tmp/x.txt" |}
           "/tmp" "x.txt"); solve [discriminate | reflexivity].
Defined.

(** The title [/] makes the whole path the root directory [/], which has
    no file name and no parent: [main.rs] fails with
    [CannotFindDir("parent")], whatever the root and the date. *)
Theorem main_build_path_slash_title (root : string) (d : Date) (m : string) :
  Main.build_path (Some root) d {| Main.message := m; Main.title := "/" |} =
    Err (CannotFindDir "parent").
Proof. reflexivity. Qed.

Lemma pad_checks :
  forallb (fun n => Bool.eqb (Nat.ltb (length (dec_nat n)) 2) (Nat.ltb n 10)) (seq 1 31) = true.
Proof. vm_compute; reflexivity. Qed.

Lemma fmt02_dec_nat (n : nat) :
  1 <= n <= 31 -> fmt02 n = if Nat.ltb n 10 then "0" ++ dec_nat n else dec_nat n.
Proof.
  intros H; pose proof pad_checks as P; rewrite forallb_forall in P.
  specialize (P n (in_range_seq n H)); apply Bool.eqb_prop in P.
  unfold fmt02; rewrite P; reflexivity.
Qed.

(** With the default title, the two [Entry] types of the crate file the
    same day under the same path only when month and day both have two
    digits: [main.rs] writes them unpadded, [entry.rs] pads them to two. *)
Theorem main_entry_paths_agree (root : string) (d : Date) (m : string) :
  root <> "" -> last_char root <> Some "/"%char -> valid_date d ->
  (Main.build_path (Some root) d {| Main.message := m; Main.title := "default" |} =
     build_path (Some root) d <-> 10 <= month d /\ 10 <= day d).
Proof.
  intros Hr Hl [Hm Hd].
  rewrite main_build_path_rel_eq by (cbn [Main.title]; solve [assumption | discriminate | reflexivity]).
  rewrite build_path_eq by assumption.
  unfold Main.format_date, format_date; cbn [Main.title].
  change (file_stem "default") with "default".
  rewrite (fmt02_dec_nat (month d) ltac:(lia)), (fmt02_dec_nat (day d) Hd).
  split.
  - intros Heq; injection Heq as Heq; apply (f_equal length) in Heq.
    rewrite !length_str_app in Heq.
    destruct (Nat.ltb_spec (month d) 10), (Nat.ltb_spec (day d) 10);
      repeat progress (rewrite ?length_str_app in Heq; cbn [length] in Heq); lia.
  - intros [H1 H2].
    destruct (Nat.ltb_spec (month d) 10); [lia|]; destruct (Nat.ltb_spec (day d) 10); [lia|].
    reflexivity.
Qed.

Lemma main_entry_paths_agree_witness :
  (Main.build_path (Some "/home/u/.til/notes") {| year := 2026; month := 10; day := 14 |}
     {| Main.message := "m"; Main.title := "default" |} =
   build_path (Some "/home/u/.til/notes") {| year := 2026; month := 10; day := 14 |} <->
   10 <= 10 /\ 10 <= 14).
Proof.
  apply (main_entry_paths_agree "/home/u/.til/notes" {| year := 2026; month := 10; day := 14 |});
    [discriminate | discriminate | unfold valid_date; cbn; lia].
Defined.

(** For a home directory that is non-empty and does not end in [/],
    [entry.rs] files entries under [home/.til/notes/MM-DD-Y/default.md];
    without a home directory the path cannot be built and the error is
    [CannotFindDir "root"]. *)
Theorem entry_path_from_home (h : string) (d : Date) :
  h <> "" -> last_char h <> Some "/"%char ->
  build_path (find_root_dir (Some h)) d =
    Ok (h ++ "/.til/notes/" ++ format_date d ++ "/default.md") /\
  build_path (find_root_dir None) d = Err (CannotFindDir "root").
Proof.
  intros Hh Hl; split; [|reflexivity].
  assert (Hr : find_root_dir (Some h) = Some (h ++ "/" ++ ".til/notes")).
  { unfold find_root_dir, path_join; cbn [option_map].
    rewrite push_relative by (try assumption; reflexivity); reflexivity. }
  destruct (find_root_dir_shape h _ Hr) as [Hne Hlast].
  rewrite Hr, build_path_eq by assumption.
  rewrite !str_app_assoc; reflexivity.
Qed.

Lemma entry_path_from_home_witness :
  build_path (find_root_dir (Some "/home/u")) {| year := 2026; month := 3; day := 7 |} =
    Ok ("/home/u" ++ "/.til/notes/" ++ format_date {| year := 2026; month := 3; day := 7 |} ++
        "/default.md") /\
  build_path (find_root_dir None) {| year := 2026; month := 3; day := 7 |} =
    Err (CannotFindDir "root").
Proof. apply entry_path_from_home; discriminate. Defined.
